(** * web3x: the EVM provider's RPC dispatcher and the Contract facade

    A shallow embedding of

    - [EvmProvider] (src/evm/provider/evm-provider.ts): [send], [on],
      [removeListener], [removeAllListeners];
    - [Eth] (src/eth/eth.ts): [send], [getPastLogs], [getAccount], [sign],
      [subscribe];
    - [Contract] (src/contract/contract.ts): the constructor with
      [getEnrichedAbiDefinition] and [getMethods], [executorFactory],
      [deployBytecode], [getEventTopics], [getLogOptions], [getPastEvents],
      [on], [once], [contractDeployFormatter], [receiptFormatter].

    JavaScript values are a small inductive type, [throw] is the [Throw]
    branch of [Completion], and an object that a method mutates is passed in
    and handed back (state passing).  The handlers that the dispatcher calls
    ([handleSendTransaction], [handleCall], ...) are imported from other
    files: the dispatcher is written over them as the fields of a record,
    and module [Core] gives the reading of them that the specification
    describes.  Module [Fixture] holds concrete values to run everything
    on. *)

From Stdlib Require Import ZArith NArith Ascii String List Lia.
From Stdlib Require Import Strings.Byte HexadecimalString.
From stdpp Require Import base option gmap strings list fin_maps.

Local Open Scope string_scope.
Local Open Scope list_scope.

(** ** JavaScript values *)

(** The values that cross the JSON-RPC boundary and the [any]-typed
    arguments of contract methods.  [VNum] holds the integers among the
    numbers and [VNaN] the one number that is falsy besides zero;
    [VBuiltin k] is the built-in function or object that a plain object
    inherits under the property name [k] (see [objectPrototypeKeys]). *)
#[local] Set Warnings "-register-all".
Inductive JsVal : Type :=
| VUndefined
| VNull
| VBool (b : bool)
| VNum (n : Z)
| VNaN
| VStr (s : string)
| VArr (items : list JsVal)
| VObj (props : list (string * JsVal))
| VBuiltin (key : string).

(** ToBoolean: what [!v] and [v || w] look at. *)
Definition truthy (v : JsVal) : bool :=
  match v with
  | VUndefined | VNull | VNaN => false
  | VBool b => b
  | VNum n => negb (n =? 0)%Z
  | VStr s => negb (String.eqb s "")
  | VArr _ | VObj _ | VBuiltin _ => true
  end.

(** [a[i]]: reading past the end of an array gives [undefined]. *)
Definition index (a : list JsVal) (i : nat) : JsVal := nth i a VUndefined.

(** The property names every plain object ([{}]) inherits from
    [Object.prototype]; each of them resolves to a function, except
    [__proto__], which resolves to [Object.prototype] itself. *)
Definition objectPrototypeKeys : list string :=
  [ "constructor"; "hasOwnProperty"; "isPrototypeOf"; "propertyIsEnumerable";
    "toLocaleString"; "toString"; "valueOf"; "__proto__";
    "__defineGetter__"; "__defineSetter__"; "__lookupGetter__";
    "__lookupSetter__" ].

Definition inherited (key : string) : bool :=
  existsb (String.eqb key) objectPrototypeKeys.

(** What a read [o[key]] of a plain object finds. *)
Inductive Lookup (V : Type) : Type :=
| Own (v : V)        (* an own property *)
| Inherited          (* a member of [Object.prototype]: truthy, not iterable *)
| Absent.            (* [undefined] *)
Arguments Own {V} v.
Arguments Inherited {V}.
Arguments Absent {V}.

(** A plain object used as a dictionary: its own properties. *)
Definition getProperty {V : Type} (o : gmap string V) (key : string) : Lookup V :=
  match o !! key with
  | Some v => Own v
  | None => if inherited key then Inherited else Absent
  end.

(** [o[key]] for an object value carried in a [JsVal]. *)
Fixpoint assoc (props : list (string * JsVal)) (key : string) : option JsVal :=
  match props with
  | [] => None
  | (k, v) :: rest => if String.eqb k key then Some v else assoc rest key
  end.

Definition getMember (props : list (string * JsVal)) (key : string) : JsVal :=
  match assoc props key with
  | Some v => v
  | None => if inherited key then VBuiltin key else VUndefined
  end.

(** ** Errors and completions *)

(** Modelled from the spec: the error kinds of its section on error
    handling; the sources at hand declare none of them. *)
Inductive ErrorKind : Type :=
| InvalidTransaction
| ExecutionReverted (data : list byte)
| OutOfGas | StackOverflow | StackUnderflow | InvalidOpcode | InvalidJump
| WriteProtection | CallDepthExceeded
| CorruptNode | MissingCode
| MethodNotFound | BadParams
| UnknownBlock | UnknownTransaction | BadFilter.

(** What a [throw] carries. *)
Inductive Exn : Type :=
| JsError (message : string)            (* [new Error(message)]; [new Error()] has message [""] *)
| JsTypeError                           (* raised by the runtime itself *)
| InvalidNumberOfParams (got expected : nat) (name : option string)
| RpcError (kind : ErrorKind).

Inductive Completion (A : Type) : Type :=
| Return (a : A)
| Throw (e : Exn).
Arguments Return {A} a.
Arguments Throw {A} e.

(** A computation over a mutable object of type [S]: the object comes back
    with the completion, also when the computation throws. *)
Definition M (S A : Type) : Type := S -> Completion A * S.

Definition ret {S A} (a : A) : M S A := fun s => (Return a, s).
Definition throw {S A} (e : Exn) : M S A := fun s => (Throw e, s).
Definition bind {S A B} (m : M S A) (k : A -> M S B) : M S B :=
  fun s =>
    match m s with
    | (Return a, s') => k a s'
    | (Throw e, s') => (Throw e, s')
    end.
(** A computation that cannot touch the state. *)
Definition lift {S A} (c : Completion A) : M S A := fun s => (c, s).

Declare Scope js_scope.
Delimit Scope js_scope with js.
Notation "'let*' x ':=' m 'in' k" := (bind m (fun x => k))
  (at level 10, x name, m at level 100, k at level 200) : js_scope.

(** [for (const a of l) { f(a) }]: a throw ends the loop. *)
Fixpoint forEach {S A} (f : A -> M S unit) (l : list A) : M S unit :=
  match l with
  | [] => ret tt
  | a :: rest => (let* _ := f a in forEach f rest)%js
  end.

(** ** Hex encodings (src/utils) *)

(** Modelled from the spec: the hex helpers of src/utils are missing; a
    digit, in lower case. *)
Definition hexDigit (n : N) : ascii :=
  match n with
  | 0 => "0" | 1 => "1" | 2 => "2" | 3 => "3" | 4 => "4" | 5 => "5"
  | 6 => "6" | 7 => "7" | 8 => "8" | 9 => "9" | 10 => "a" | 11 => "b"
  | 12 => "c" | 13 => "d" | 14 => "e" | _ => "f"
  end%N%char.

(** Modelled from the spec: the value of a hex digit, either case. *)
Definition hexValue (c : ascii) : option N :=
  let n := N_of_ascii c in
  if ((48 <=? n) && (n <=? 57))%N then Some (n - 48)%N          (* 0-9 *)
  else if ((97 <=? n) && (n <=? 102))%N then Some (n - 87)%N    (* a-f *)
  else if ((65 <=? n) && (n <=? 70))%N then Some (n - 55)%N     (* A-F *)
  else None.

(** Modelled from the spec: [numberToHex] of src/utils is not among the
    sources; a quantity is written as minimal hex without leading zeros,
    ["0x0"] for zero. *)
Definition numberToHex (n : N) : string :=
  "0x" ++ NilZero.string_of_uint (N.to_hex_uint n).

(** Modelled from the spec: the two hex digits of a byte, before [rest]. *)
Definition byteToHex (b : byte) (rest : string) : string :=
  let n := Byte.to_N b in
  String (hexDigit (n / 16)%N) (String (hexDigit (n mod 16)%N) rest).

(** Modelled from the spec: the hex digits of a byte string. *)
Definition bytesToHex (buf : list byte) : string := fold_right byteToHex "" buf.

(** Modelled from the spec: [bufferToHex] of src/utils is not among the
    sources; a byte string is written as 0x-prefixed lowercase hex of exact
    length, two digits a byte. *)
Definition bufferToHex (buf : list byte) : string := "0x" ++ bytesToHex buf.

(** Modelled from the spec: the bytes of a string of hex digits, [None]
    unless it is an even number of them. *)
Fixpoint hexToBytes (s : string) : option (list byte) :=
  match s with
  | "" => Some []
  | String hi (String lo rest) =>
      match hexValue hi, hexValue lo, hexToBytes rest with
      | Some h, Some l, Some bs =>
          match Byte.of_N (h * 16 + l)%N with
          | Some b => Some (b :: bs)
          | None => None
          end
      | _, _, _ => None
      end
  | String _ "" => None
  end.

(** Modelled from the spec: [hexToBuffer] of src/utils is not among the
    sources; the inverse reading of [bufferToHex], [None] unless the string
    is [0x] followed by hex digits, two a byte. *)
Definition hexToBuffer (s : string) : option (list byte) :=
  match s with
  | String "0" (String "x" digits) => hexToBytes digits
  | _ => None
  end.

(** ** The provider interface (src/providers/ethereum-provider.ts)

    What [Eth] needs of a provider: [send(method, params)], which may change
    the provider and may throw. *)
Class EthereumProvider (P : Type) : Type :=
  { provider_send : string -> option (list JsVal) -> M P JsVal }.

(** ** EvmProvider (src/evm/provider/evm-provider.ts) *)

(** What evm-provider.ts imports from files that are not among the sources:
    the typed requests and responses with their formatters
    (src/formatters), [Address.fromString], and the five handlers.  A handler
    gets the objects the dispatcher passes to it: [handleCall] and
    [getAccountCode] the world state, the receipt and log queries the
    blockchain, [handleSendTransaction] both.  The two objects are kept as
    two values here; [fromDb] builds both over one database, and what a
    handler that is given one of them does to the other through that
    database is not followed. *)
Module Imports.
Record Handlers : Type :=
{ WorldState : Type;
  Blockchain : Type;
  TransactionRequest : Type;
  CallRequest : Type;
  LogRequest : Type;
  TransactionReceipt : Type;
  LogResponse : Type;
  Address : Type;
  fromRawTransactionRequest : JsVal -> Completion TransactionRequest;
  fromRawCallRequest : JsVal -> Completion CallRequest;
  fromRawLogRequest : JsVal -> Completion LogRequest;
  toRawLogResponse : LogResponse -> JsVal;
  toRawTransactionReceipt : option TransactionReceipt -> JsVal;
  addressFromString : JsVal -> Completion Address;
  handleSendTransaction : TransactionRequest -> M (WorldState * Blockchain) JsVal;
  handleCall : CallRequest -> M WorldState (list byte);
  handleGetTransactionReceipt : JsVal -> M Blockchain (option TransactionReceipt);
  getAccountCode : Address -> M WorldState (list byte);
  getLogs : LogRequest -> M Blockchain (list LogResponse) }.
End Imports.

Module Provider.
Import Imports.

Section EvmProvider.
Context (H : Handlers).

(** [constructor(public readonly worldState, private readonly blockchain)]. *)
Record EvmProvider : Type :=
  { worldState : WorldState H;
    blockchain : Blockchain H }.

(** A handler called with [this.worldState], with [this.blockchain], or
    with both. *)
Definition withWorldState {A} (m : M (WorldState H) A) : M EvmProvider A :=
  fun this =>
    let '(r, ws) := m (worldState this) in
    (r, {| worldState := ws; blockchain := blockchain this |}).

Definition withBlockchain {A} (m : M (Blockchain H) A) : M EvmProvider A :=
  fun this =>
    let '(r, bc) := m (blockchain this) in
    (r, {| worldState := worldState this; blockchain := bc |}).

Definition withBoth {A} (m : M (WorldState H * Blockchain H) A) : M EvmProvider A :=
  fun this =>
    let '(r, (ws, bc)) := m (worldState this, blockchain this) in
    (r, {| worldState := ws; blockchain := bc |}).

(** The method names the second [switch] of [send] has a case for, and
    [eth_gasPrice], which the first one answers. *)
Definition implementedMethods : list string :=
  [ "eth_gasPrice"; "eth_sendTransaction"; "eth_call";
    "eth_getTransactionReceipt"; "eth_getCode"; "eth_getLogs" ].

(** [send(method, params?)].  [params] is [None] when the argument is
    absent ([undefined]); an array, also an empty one, is truthy.  The
    second [switch] has no [default]: the function then ends and the
    promise resolves to [undefined]. *)
Definition send (method : string) (params : option (list JsVal))
  : M EvmProvider JsVal :=
  if String.eqb method "eth_gasPrice" then
    ret (VStr (numberToHex 50000))
  else
    match params with
    | None => throw (JsError "")
    | Some params =>
        if negb (truthy (index params 0)) then throw (JsError "")
        else if String.eqb method "eth_sendTransaction" then
          (let* tx := lift (fromRawTransactionRequest H (index params 0)) in
           withBoth (handleSendTransaction H tx))%js
        else if String.eqb method "eth_call" then
          (let* req := lift (fromRawCallRequest H (index params 0)) in
           let* returned := withWorldState (handleCall H req) in
           ret (VStr (bufferToHex returned)))%js
        else if String.eqb method "eth_getTransactionReceipt" then
          (let* receipt := withBlockchain
                             (handleGetTransactionReceipt H (index params 0)) in
           ret (toRawTransactionReceipt H receipt))%js
        else if String.eqb method "eth_getCode" then
          (let* address := lift (addressFromString H (index params 0)) in
           let* code := withWorldState (getAccountCode H address) in
           ret (VStr (bufferToHex code)))%js
        else if String.eqb method "eth_getLogs" then
          (let* req := lift (fromRawLogRequest H (index params 0)) in
           let* logs := withBlockchain (getLogs H req) in
           ret (VArr (map (toRawLogResponse H) logs)))%js
        else ret VUndefined
    end.

(** [on], [removeListener], [removeAllListeners]: each overload ends in
    the one implementation, which throws.  The provider holds no listener
    table: its only fields are the world state and the blockchain. *)
Definition on {L : Type} (notification : JsVal) (listener : L)
  : M EvmProvider unit :=
  throw (JsError "Method not implemented.").

Definition removeListener {L : Type} (notification : JsVal) (listener : L)
  : M EvmProvider unit :=
  throw (JsError "Method not implemented.").

Definition removeAllListeners (notification : JsVal) : M EvmProvider unit :=
  throw (JsError "Method not implemented.").

#[global] Instance EvmProvider_EthereumProvider : EthereumProvider EvmProvider :=
  { provider_send := send }.
End EvmProvider.

Arguments worldState {H} _.
Arguments blockchain {H} _.
End Provider.

(** ** Eth (src/eth/eth.ts) *)

Module Eth.
(** What a method of [EthRequestPayloads] builds: the RPC method, its
    parameters and the formatter of the answer. *)
Record RequestPayload (A : Type) : Type :=
  { method : string;
    params : option (list JsVal);
    format : JsVal -> Completion A }.
Arguments method {A} _.
Arguments params {A} _.
Arguments format {A} _.

Section Eth.
Context {P : Type} `{EthereumProvider P}.

(** [private async send({ method, params, format })]: the one place where
    [Eth] talks to its provider.  The state is the provider object that
    [Eth] holds. *)
Definition send {A : Type} (payload : RequestPayload A) : M P A :=
  (let* answer := provider_send (method payload) (params payload) in
   lift (format payload answer))%js.

(** *** The object and its wallet *)

Context {Address Wallet Account Subscription : Type}.

(** An [Eth]: its provider, [request.defaultFromAddress] and [wallet]. *)
Record Eth : Type :=
  { provider : P;
    defaultFromAddress : option Address;
    wallet : option Wallet }.

(** A request sent from inside the object: only the provider can change. *)
Definition withProvider {A} (m : M P A) : M Eth A :=
  fun this =>
    let '(r, p) := m (provider this) in
    (r, {| provider := p;
           defaultFromAddress := defaultFromAddress this;
           wallet := wallet this |}).

(** [set defaultFromAddress(address)]. *)
Definition setDefaultFromAddress (address : option Address) : M Eth unit :=
  fun this =>
    (Return tt,
     {| provider := provider this;
        defaultFromAddress := address;
        wallet := wallet this |}).

(** What eth.ts imports for signing: [Wallet.get], [Account.sign] followed
    by [.signature], and [request.sign], which may read the request's
    default address. *)
Context (walletGet : Wallet -> Address -> option Account)
        (accountSign : Account -> string -> string)
        (signPayload : option Address -> Address -> string -> RequestPayload string).

(** [private getAccount(address?)]: [address || this.defaultFromAddress],
    looked up when there is a wallet; [undefined] otherwise. *)
Definition getAccount (address : option Address) (this : Eth) : option Account :=
  let address :=
    match address with
    | Some a => Some a
    | None => defaultFromAddress this
    end in
  match wallet this, address with
  | Some w, Some a => walletGet w a
  | _, _ => None
  end.

(** [sign(address, dataToSign)]. *)
Definition sign (address : Address) (dataToSign : string) : M Eth string :=
  fun this =>
    match getAccount (Some address) this with
    | None =>
        withProvider
          (send (signPayload (defaultFromAddress this) address dataToSign))
          this
    | Some account => (Return (accountSign account dataToSign), this)
    end.

(** [subscribe(type, ...args)].  [subscribeForLogs] is handed the object,
    the other three its provider. *)
Context (subscribeForLogs : list JsVal -> M Eth Subscription)
        (subscribeForSyncing : M P Subscription)
        (subscribeForNewHeads : M P Subscription)
        (subscribeForNewPendingTransactions : M P Subscription).

Definition subscribe (type : string) (args : list JsVal) : M Eth Subscription :=
  if String.eqb type "logs" then subscribeForLogs args
  else if String.eqb type "syncing" then withProvider subscribeForSyncing
  else if String.eqb type "newBlockHeaders" then
    withProvider subscribeForNewHeads
  else if String.eqb type "pendingTransactions" then
    withProvider subscribeForNewPendingTransactions
  else throw (JsError ("Unknown subscription type: " ++ type)).
End Eth.
End Eth.

(** ** Contract (src/contract/contract.ts) *)

Module Contract.

(** An entry of a contract's ABI (src/contract/contract-abi.ts), with the
    fields contract.ts reads.  An optional field is [None] when it is
    absent. *)
Record AbiInput : Type :=
  { input_name : string;
    input_type : string;
    indexed : option bool }.

Record AbiDefinition : Type :=
  { type : string;
    name : option string;
    inputs : option (list AbiInput);
    anonymous : option bool;
    stateMutability : option string;
    constant : option bool;
    payable : option bool;
    signature : option string }.

(** A slot of a topic filter: [null], one value, or alternatives. *)
Inductive Topic : Type :=
| TopicNull
| TopicOne (t : string)
| TopicAny (ts : list string).

(** The property key a value is turned into by [o[name]]. *)
Definition propertyKey (name : option string) : string :=
  default "undefined" name.

(** ToBoolean of an optional boolean. *)
Definition isTrue (b : option bool) : bool := default false b.

Definition optionEqb (a : option string) (b : string) : bool :=
  match a with Some a => String.eqb a b | None => false end.

Definition is_Some_b {A} (a : option A) : bool :=
  match a with Some _ => true | None => false end.

(** [String.prototype.toLowerCase], on the letters A to Z.  No other
    character lower-cases to one of the letters of ["allevents"], the only
    string the result is compared with. *)
Definition lowerAscii (c : ascii) : ascii :=
  let n := N_of_ascii c in
  if ((65 <=? n) && (n <=? 90))%N then ascii_of_N (n + 32) else c.

Fixpoint toLowerCase (s : string) : string :=
  match s with
  | "" => ""
  | String c rest => String (lowerAscii c) (toLowerCase rest)
  end.

(** [s.replace('0x', '')]: the first occurrence is removed. *)
Fixpoint remove0x (s : string) : string :=
  match s with
  | "" => ""
  | String c rest =>
      match c, rest with
      | "0"%char, String "x"%char rest' => rest'
      | _, _ => String c (remove0x rest)
      end
  end.

Definition dquote : string := String (ascii_of_nat 34) "".

(** Whether ["0x"] occurs in a string. *)
Fixpoint contains0x (s : string) : bool :=
  match s with
  | "" => false
  | String c rest =>
      match c, rest with
      | "0"%char, String "x"%char _ => true
      | _, _ => contains0x rest
      end
  end.

(** [method.signature = sig], and [{ ...method, signature: sig }]. *)
Definition setSignature (sig : string) (method : AbiDefinition)
  : AbiDefinition :=
  {| type := type method; name := name method; inputs := inputs method;
     anonymous := anonymous method;
     stateMutability := stateMutability method;
     constant := constant method; payable := payable method;
     signature := Some sig |}.

Section Contract.
(** Types that contract.ts imports. *)
Context {Address Wallet Log EventLog Callback Subscription ReceiptFields : Type}.

Record ContractOptions : Type :=
  { from : option Address;
    gasPrice : option string;
    gas : option N }.

(** [GetLogOptions] (src/formatters). *)
Record GetLogOptions : Type :=
  { opt_filter : option (list (string * JsVal));
    opt_toBlock : option JsVal;
    opt_fromBlock : option JsVal;
    opt_address : option Address;
    opt_topics : option (list Topic) }.

(** The fields of a [Contract] that its methods read after construction.
    [eth] is a reference to the shared [Eth] object: the computations that
    use it are computations over its provider. *)
Record Contract : Type :=
  { jsonInterface : list AbiDefinition;
    address : option Address;
    options : ContractOptions;
    wallet : option Wallet }.

(** [new Tx(eth, definition, address, args, options, wallet,
    extraFormatters)]: the arguments that vary, kept as given. *)
Record Tx : Type :=
  { tx_definition : AbiDefinition;
    tx_address : Address;
    tx_args : list JsVal;
    tx_options : ContractOptions;
    tx_wallet : option Wallet }.

(** [TxFactory]: the closure [(...args) => Tx].  It reads [this.address]
    when it is called, so the contract is an argument. *)
Definition TxFactory : Type := Contract -> list JsVal -> Completion Tx.

(** Functions that contract.ts imports (./abi, ./decode-event-abi,
    ../formatters, ../subscriptions, EthRequestPayloads). *)
Context (abiMethodToString : AbiDefinition -> string)
        (encodeFunctionSignature : string -> string)
        (encodeEventSignature : string -> string)
        (encodeParameter : string -> JsVal -> Completion string)
        (decodeAnyEvent : list AbiDefinition -> Log -> EventLog)
        (event : EventLog -> option string)
        (inputLogFormatter : GetLogOptions -> JsVal)
        (getPastLogsPayload : GetLogOptions -> Eth.RequestPayload (list Log)).

(** The value a plain object inherits from [Object.prototype] under [key],
    and the member of [Function.prototype] under [key], each called as a
    function at the place where an overload is expected. *)
Context (callInherited : string -> TxFactory)
        (callFunctionMember : string -> TxFactory).

(** *** executorFactory *)

(** [args] is a rest parameter, hence always an array: [!args] is false. *)
Definition executorFactory (definition : AbiDefinition)
    (nextOverload : option TxFactory) : TxFactory :=
  fun this args =>
    match address this with
    | None => Throw (JsError "No contract address.")
    | Some addr =>
        let tx := {| tx_definition := definition;
                     tx_address := addr;
                     tx_args := args;
                     tx_options := options this;
                     tx_wallet := wallet this |} in
        let noArgs := false in
        match inputs definition with
        | Some ins =>
            if (noArgs && (0 <? length ins)%nat)
               || negb (length args =? length ins)%nat
            then
              match nextOverload with
              | Some next => next this args
              | None =>
                  Throw (InvalidNumberOfParams (length args) (length ins)
                           (name definition))
              end
            else Return tx
        | None => Return tx
        end
    end.

(** *** getMethods *)

(** [const methods: any = {}] with what the loop stores in it.  The object
    starts with [Object.prototype] as its prototype.  A store under the key
    [__proto__] runs the setter that the object inherits: no own property
    appears, and the function that is stored becomes the prototype of
    [methods].  From then on [methods] also answers for what a function
    supplies ahead of [Object.prototype]: the own properties [length] and
    [name] of the arrow function that [executorFactory] returns ([0] and
    [""], both read-only), and the members of [Function.prototype]. *)
Record Methods : Type :=
  { properties : gmap string TxFactory;   (* the own properties *)
    prototype : option TxFactory }.       (* [None]: [Object.prototype] *)

Definition noMethods : Methods := {| properties := ∅; prototype := None |}.

(** The own properties of an arrow function [(...args) => ...], which
    [Function.prototype] has as well: data properties that are falsy and
    not writable. *)
Definition functionReadOnlyKeys : list string := ["length"; "name"].

(** The accessors of [Function.prototype] that throw a [TypeError] when
    they are read and when they are written. *)
Definition functionThrowingKeys : list string := ["arguments"; "caller"].

(** The other members of [Function.prototype]: functions, in writable
    properties. *)
Definition functionPrototypeKeys : list string :=
  ["apply"; "bind"; "call"; "constructor"; "toString"].

Definition oneOf (keys : list string) (key : string) : bool :=
  existsb (String.eqb key) keys.

(** [methods[key]]: [None] when the value is falsy ([undefined], [0],
    [""]), and otherwise the value as it behaves when it is called as the
    next overload.  Under [__proto__] the inherited getter answers with the
    prototype itself. *)
Definition getMethod (key : string) : M Methods (option TxFactory) :=
  fun methods =>
    let fromObject :=
      if inherited key then Some (callInherited key) else None in
    (match properties methods !! key with
     | Some f => Return (Some f)
     | None =>
         match prototype methods with
         | None => Return fromObject
         | Some proto =>
             if String.eqb key "__proto__" then Return (Some proto)
             else if oneOf functionReadOnlyKeys key then Return None
             else if oneOf functionThrowingKeys key then Throw JsTypeError
             else if oneOf functionPrototypeKeys key
                  then Return (Some (callFunctionMember key))
             else Return fromObject
         end
     end,
     methods).

(** [methods[key] = f], in the strict code of a class body.  A key that is
    not an own property and that the prototype chain holds as read-only, or
    as an accessor whose setter throws, makes the store throw a
    [TypeError]; every other key becomes or stays an own property. *)
Definition setMethod (key : string) (f : TxFactory) : M Methods unit :=
  fun methods =>
    if String.eqb key "__proto__" then
      (Return tt, {| properties := properties methods; prototype := Some f |})
    else
      let refused :=
        match properties methods !! key, prototype methods with
        | None, Some _ =>
            oneOf functionReadOnlyKeys key || oneOf functionThrowingKeys key
        | _, _ => false
        end in
      if refused then (Throw JsTypeError, methods)
      else
        (Return tt,
         {| properties := <[key := f]> (properties methods);
            prototype := prototype methods |}).

(** The body of the loop over the functions of the ABI. *)
Definition addMethod (method : AbiDefinition) : M Methods unit :=
  let key := propertyKey (name method) in
  let funcName := abiMethodToString method in
  let sig := encodeFunctionSignature funcName in
  let method := setSignature sig method in
  let func := executorFactory method None in
  (let* existing := getMethod key in
   let* _ :=
     match existing with
     | None => setMethod key func
     | Some previous =>
         setMethod key (executorFactory method (Some previous))
     end in
   let* _ := setMethod sig func in
   setMethod funcName func)%js.

Definition getMethods (contractDefinition : list AbiDefinition)
  : Completion Methods :=
  match forEach addMethod
          (List.filter (fun method => String.eqb (type method) "function")
             contractDefinition)
          noMethods with
  | (Return _, methods) => Return methods
  | (Throw e, _) => Throw e
  end.

(** The keys [getMethods] stores a function under: its name, its signature
    and its full name. *)
Definition storedKeys (method : AbiDefinition) : list string :=
  let funcName := abiMethodToString method in
  [propertyKey (name method); encodeFunctionSignature funcName; funcName].

(** Every function that [methods] holds, as an own property or as its
    prototype, is some executor. *)
Definition allExecutors (methods : Methods) : Prop :=
  map_Forall (fun _ f => exists d n, f = executorFactory d n)
    (properties methods)
  /\ forall f, prototype methods = Some f ->
               exists d n, f = executorFactory d n.

(** [getMethods] writes [method.signature] into the very objects of the
    list it is given: what a function entry looks like afterwards. *)
Definition resign (method : AbiDefinition) : AbiDefinition :=
  if String.eqb (type method) "function"
  then setSignature (encodeFunctionSignature (abiMethodToString method)) method
  else method.

(** What the registrations of [ds], in this order, leave under a name that
    held [previous] before: each definition's executor has the one before
    it as its next overload. *)
Definition cascade (previous : option TxFactory) (ds : list AbiDefinition)
  : option TxFactory :=
  fold_left (fun previous d => Some (executorFactory d previous)) ds previous.

(** Whether an executor of [d] takes [args] itself: no declared inputs, or
    as many as there are arguments. *)
Definition accepts (args : list JsVal) (d : AbiDefinition) : bool :=
  match inputs d with
  | Some ins => (length args =? length ins)%nat
  | None => true
  end.

(** *** getEnrichedAbiDefinition *)

Definition enrich (method : AbiDefinition) : AbiDefinition :=
  let constant :=
    if optionEqb (stateMutability method) "view"
       || optionEqb (stateMutability method) "pure"
    then Some true else constant method in
  let payable :=
    if optionEqb (stateMutability method) "payable"
    then Some true else payable method in
  let method :=
    {| type := type method; name := name method; inputs := inputs method;
       anonymous := anonymous method;
       stateMutability := stateMutability method;
       constant := constant; payable := payable;
       signature := signature method |} in
  if String.eqb (type method) "function" then
    setSignature (encodeFunctionSignature (abiMethodToString method)) method
  else if String.eqb (type method) "event" then
    setSignature (encodeEventSignature (abiMethodToString method)) method
  else method.

Definition getEnrichedAbiDefinition (contractDefinition : list AbiDefinition)
  : list AbiDefinition :=
  map enrich contractDefinition.

(** [this.methods], set once by the constructor:
    [this.getMethods(this.jsonInterface)] on the enriched ABI. *)
Definition newMethods (abi : list AbiDefinition) : Completion Methods :=
  getMethods (getEnrichedAbiDefinition abi).

(** [new Contract(eth, jsonInterface, address?, defaultOptions = {},
    wallet?)]: the fields of the object once the constructor has returned.
    It throws where [getMethods] does. *)
Definition newContract (abi : list AbiDefinition) (addr : option Address)
    (defaultOptions : ContractOptions) (w : option Wallet) : Contract :=
  {| jsonInterface := map resign (getEnrichedAbiDefinition abi);
     address := addr;
     options := {| from := from defaultOptions;
                   gasPrice := gasPrice defaultOptions;
                   gas := gas defaultOptions |};
     wallet := w |}.

(** *** getEventTopics *)

Fixpoint mapM {A B} (f : A -> Completion B) (l : list A)
  : Completion (list B) :=
  match l with
  | [] => Return []
  | a :: rest =>
      match f a with
      | Throw e => Throw e
      | Return b =>
          match mapM f rest with
          | Throw e => Throw e
          | Return bs => Return (b :: bs)
          end
      end
  end.

(** The topic of one indexed input: [null] when the filter has no truthy
    value under the input's name. *)
Definition indexedTopic (options : GetLogOptions) (input : AbiInput)
  : Completion Topic :=
  let filter := default [] (opt_filter options) in
  let value := getMember filter (input_name input) in
  if negb (truthy value) then Return TopicNull
  else
    match value with
    | VArr vs =>
        match mapM (encodeParameter (input_type input)) vs with
        | Return ts => Return (TopicAny ts)
        | Throw e => Throw e
        end
    | _ =>
        match encodeParameter (input_type input) value with
        | Return t => Return (TopicOne t)
        | Throw e => Throw e
        end
    end.

Definition getEventTopics (event : AbiDefinition) (options : GetLogOptions)
  : Completion (list Topic) :=
  let topics :=
    match signature event with
    | Some sig =>
        if negb (isTrue (anonymous event)) && negb (String.eqb sig "")
        then [TopicOne sig] else []
    | None => []
    end in
  match mapM (indexedTopic options)
          (List.filter
             (fun input =>
                match indexed input with Some true => true | _ => false end)
             (default [] (inputs event))) with
  | Return indexedTopics => Return (topics ++ indexedTopics)
  | Throw e => Throw e
  end.

(** *** getLogOptions *)

Definition isEvent (eventName : string) (json : AbiDefinition) : bool :=
  String.eqb (type json) "event"
  && (optionEqb (name json) eventName
      || optionEqb (signature json) ("0x" ++ remove0x eventName)).

Definition addressNotSet : string :=
  "This contract object doesn't have address set yet, please set an address first.".

(** [getLogOptions(eventName = 'allevents', options)]. *)
Definition getLogOptions (this : Contract) (eventName : option string)
    (options : GetLogOptions) : Completion GetLogOptions :=
  let eventName := default "allevents" eventName in
  match address this with
  | None => Throw (JsError addressNotSet)
  | Some addr =>
      if String.eqb (toLowerCase eventName) "allevents" then
        Return {| opt_filter := opt_filter options;
                  opt_toBlock := opt_toBlock options;
                  opt_fromBlock := opt_fromBlock options;
                  opt_address := Some addr;
                  opt_topics := opt_topics options |}
      else
        match List.find (isEvent eventName) (jsonInterface this) with
        | None =>
            Throw (JsError
              ("Event " ++ dquote ++ eventName ++ dquote
               ++ " doesn't exist in this contract."))
        | Some event =>
            match getEventTopics event options with
            | Throw e => Throw e
            | Return topics =>
                Return {| opt_filter := opt_filter options;
                          opt_toBlock := opt_toBlock options;
                          opt_fromBlock := opt_fromBlock options;
                          opt_address := Some addr;
                          opt_topics := Some topics |}
            end
        end
  end.

(** *** getPastEvents, on, once *)

Context {P : Type} `{EthereumProvider P}.

(** [Eth.getPastLogs(options)]: [send(this.request.getPastLogs(options))]. *)
Definition getPastLogs (options : GetLogOptions) : M P (list Log) :=
  Eth.send (getPastLogsPayload options).

(** [getPastEvents(event, options = {})]. *)
Definition getPastEvents (this : Contract) (eventName : option string)
    (options : GetLogOptions) : M P (list EventLog) :=
  (let* logOptions := lift (getLogOptions this eventName options) in
   let* result := getPastLogs logOptions in
   ret (map (decodeAnyEvent (jsonInterface this)) result))%js.

(** The listener a subscription is created with: the caller's callback, if
    any, as [on] wraps it, or as [once] wraps it (unsubscribe first). *)
Inductive Listener : Type :=
| Plain (callback : option Callback)
| Once (callback : Callback).

(** The [Subscription] class (src/subscriptions): construction,
    [subscribe()], which sends the subscription request, and [emit]. *)
Context (newSubscription : list JsVal -> Listener -> Subscription)
        (subscribe : Subscription -> M P Subscription)
        (emitData : EventLog -> Subscription -> Subscription)
        (emitError : Exn -> Subscription -> Subscription).

(** [private on(event, options = {}, callback?)].  With a [fromBlock] the
    past logs are asked for first; the continuation of that request ([then]
    and [catch]) is run here right after it: an error of the request, or of
    [subscribe] inside [then], ends as an emitted ['error']. *)
Definition subscribeTo (this : Contract) (eventName : option string)
    (options : GetLogOptions) (listener : Listener) : M P Subscription :=
  (let* logOptions := lift (getLogOptions this eventName options) in
   let subLogOptions :=
     {| opt_filter := opt_filter logOptions;
        opt_toBlock := opt_toBlock logOptions;
        opt_fromBlock := None;
        opt_address := opt_address logOptions;
        opt_topics := opt_topics logOptions |} in
   let params := [inputLogFormatter subLogOptions] in
   let subscription := newSubscription params listener in
   match opt_fromBlock logOptions with
   | Some _ =>
       fun eth =>
         match getPastLogs logOptions eth with
         | (Return logs, eth') =>
             let emitted :=
               fold_left
                 (fun sub result =>
                    emitData (decodeAnyEvent (jsonInterface this) result) sub)
                 logs subscription in
             match subscribe emitted eth' with
             | (Return sub, eth'') => (Return sub, eth'')
             | (Throw err, eth'') => (Return (emitError err emitted), eth'')
             end
         | (Throw err, eth') => (Return (emitError err subscription), eth')
         end
   | None => subscribe subscription
   end)%js.

Definition on (this : Contract) (eventName : option string)
    (options : GetLogOptions) (callback : option Callback) : M P Subscription :=
  subscribeTo this eventName options (Plain callback).

(** [once(event, options, callback)]. *)
Definition once (this : Contract) (eventName : option string)
    (options : GetLogOptions) (callback : Callback) : M P unit :=
  (let* _ := subscribeTo this eventName options (Once callback) in ret tt)%js.

(** *** receiptFormatter *)

(** A [TransactionReceipt] (src/formatters) as the formatter sees it:
    [logs] is [None] when the field is not an array, [events] and
    [unnamedEvents] are [None] while undefined, [contractAddress] is the
    address a deployment created, and [fields] holds the
    rest of the receipt. *)
Record TransactionReceipt : Type :=
  { logs : option (list Log);
    events : option (gmap string (list EventLog));
    unnamedEvents : option (list EventLog);
    contractAddress : option Address;
    fields : ReceiptFields }.

(** [ev.event], when it is truthy. *)
Definition named (ev : EventLog) : option string :=
  match event ev with
  | Some n => if String.eqb n "" then None else Some n
  | None => None
  end.

(** The body of the loop over the decoded events.  [[...events, ev]]
    iterates [events]: the value a plain object inherits under the event's
    name is truthy and not iterable, so the spread throws.  The store is
    reached with a name that is an own property already, or that is nowhere
    on the prototype chain: it replaces or makes an own property. *)
Definition addEvent (ev : EventLog) : M TransactionReceipt unit :=
  fun receipt =>
    match named ev with
    | Some evName =>
        let store (evs : list EventLog) (table : gmap string (list EventLog)) :=
          {| logs := logs receipt;
             events := Some (<[evName := evs ++ [ev]]> table);
             unnamedEvents := unnamedEvents receipt;
             contractAddress := contractAddress receipt;
             fields := fields receipt |} in
        match events receipt with
        | None => (Throw JsTypeError, receipt)
        | Some table =>
            match getProperty table evName with
            | Own evs => (Return tt, store evs table)
            | Absent => (Return tt, store [] table)
            | Inherited => (Throw JsTypeError, receipt)
            end
        end
    | None =>
        match unnamedEvents receipt with
        | None => (Throw JsTypeError, receipt)
        | Some unnamed =>
            (Return tt,
             {| logs := logs receipt;
                events := events receipt;
                unnamedEvents := Some (unnamed ++ [ev]);
                contractAddress := contractAddress receipt;
                fields := fields receipt |})
        end
    end.

(** [contractDeployFormatter(receipt)]: the contract takes the address of
    the deployment; the receipt is returned as it is. *)
Definition contractDeployFormatter (receipt : TransactionReceipt)
  : M Contract TransactionReceipt :=
  fun this =>
    (Return receipt,
     {| jsonInterface := jsonInterface this;
        address := contractAddress receipt;
        options := options this;
        wallet := wallet this |}).

(** [receiptFormatter(receipt)].  The function changes the receipt it is
    given and returns that same object: the receipt handed back is the
    return value. *)
Definition receiptFormatter (this : Contract) : M TransactionReceipt unit :=
  fun receipt =>
    match logs receipt with
    | None => (Return tt, receipt)
    | Some ls =>
        let decodedEvents := map (decodeAnyEvent (jsonInterface this)) ls in
        let receipt :=
          {| logs := logs receipt;
             events := Some ∅;
             unnamedEvents := Some [];
             contractAddress := contractAddress receipt;
             fields := fields receipt |} in
        match forEach addEvent decodedEvents receipt with
        | (Return _, receipt) =>
            (Return tt,
             {| logs := None;
                events := events receipt;
                unnamedEvents := unnamedEvents receipt;
                contractAddress := contractAddress receipt;
                fields := fields receipt |})
        | (Throw e, receipt) => (Throw e, receipt)
        end
    end.

(** *** deployBytecode *)

(** [new TxDeploy(eth, constructor, data, args, options, wallet,
    extraFormatters)]: the arguments that vary, kept as given. *)
Record TxDeploy : Type :=
  { deploy_definition : AbiDefinition;
    deploy_data : string;
    deploy_args : list JsVal;
    deploy_options : ContractOptions;
    deploy_wallet : option Wallet }.

(** [{ type: 'constructor' }]. *)
Definition bareConstructor : AbiDefinition :=
  {| type := "constructor"; name := None; inputs := None; anonymous := None;
     stateMutability := None; constant := None; payable := None;
     signature := None |}.

Definition isConstructor (method : AbiDefinition) : bool :=
  String.eqb (type method) "constructor".

(** [constructor.signature = 'constructor'] writes into the entry that
    [find] returned, the first constructor of the ABI. *)
Fixpoint markConstructor (abi : list AbiDefinition) : list AbiDefinition :=
  match abi with
  | [] => []
  | method :: rest =>
      if isConstructor method then setSignature "constructor" method :: rest
      else method :: markConstructor rest
  end.

(** [deployBytecode(data, ...args)]. *)
Definition deployBytecode (data : string) (args : list JsVal)
  : M Contract TxDeploy :=
  fun this =>
    let constructor :=
      setSignature "constructor"
        (default bareConstructor
           (List.find isConstructor (jsonInterface this))) in
    (Return {| deploy_definition := constructor;
               deploy_data := data;
               deploy_args := args;
               deploy_options := options this;
               deploy_wallet := wallet this |},
     {| jsonInterface := markConstructor (jsonInterface this);
        address := address this;
        options := options this;
        wallet := wallet this |}).
End Contract.
End Contract.

(** ** Keccak-256

    The hash of the specification's data model ("Hash: 32-byte digest
    (Keccak-256)").  The state of the permutation is a list of 25 lanes of
    64 bits, lane [(x, y)] at index [x + 5 * y]. *)

Module Keccak.
Local Open Scope N_scope.

(** Modelled from the spec: no hash function is among the sources; a lane
    is a number below [2 ^ 64]. *)
Definition mask64 (n : N) : N := N.land n (N.ones 64).

(** Modelled from the spec: rotation of a lane to the left, for the missing
    hash function. *)
Definition rotl64 (n r : N) : N :=
  mask64 (N.lor (N.shiftl n r) (N.shiftr n (64 - r))).

(** Modelled from the spec: the round constants of Keccak-f[1600], for the
    missing hash function. *)
Definition roundConstants : list N :=
  [ 0x0000000000000001; 0x0000000000008082; 0x800000000000808A;
    0x8000000080008000; 0x000000000000808B; 0x0000000080000001;
    0x8000000080008081; 0x8000000000008009; 0x000000000000008A;
    0x0000000000000088; 0x0000000080008009; 0x000000008000000A;
    0x000000008000808B; 0x800000000000008B; 0x8000000000008089;
    0x8000000000008003; 0x8000000000008002; 0x8000000000000080;
    0x000000000000800A; 0x800000008000000A; 0x8000000080008081;
    0x8000000000008080; 0x0000000080000001; 0x8000000080008008 ].

(** Modelled from the spec: the rotation offsets of the step rho, for the
    missing hash function. *)
Definition rotationOffsets : list N :=
  [ 0; 1; 62; 28; 27;
    36; 44; 6; 55; 20;
    3; 10; 43; 25; 39;
    41; 45; 15; 21; 8;
    18; 2; 61; 56; 14 ].

(** Modelled from the spec: the lane at [(x, y)], coordinates taken modulo
    5, for the missing hash function. *)
Definition lane (s : list N) (x y : nat) : N :=
  nth ((x mod 5) + 5 * (y mod 5))%nat s 0.

(** Modelled from the spec: a state given lane by lane, for the missing
    hash function. *)
Definition build (f : nat -> nat -> N) : list N :=
  map (fun i => f (i mod 5)%nat (i / 5)%nat) (seq 0 25).

(** Modelled from the spec: the step theta of the missing hash function. *)
Definition theta (s : list N) : list N :=
  let c x := fold_left N.lxor (map (lane s x) (seq 0 5)) 0 in
  let cs := map c (seq 0 5) in
  let d x := N.lxor (nth ((x + 4) mod 5)%nat cs 0)
                    (rotl64 (nth ((x + 1) mod 5)%nat cs 0) 1) in
  let ds := map d (seq 0 5) in
  build (fun x y => N.lxor (lane s x y) (nth x ds 0)).

(** Modelled from the spec: the steps rho and pi of the missing hash
    function; the lane that ends at [(x, y)] comes from
    [(x + 3 * y, x)]. *)
Definition rhoPi (s : list N) : list N :=
  build (fun x y =>
           let x0 := ((x + 3 * y) mod 5)%nat in
           let y0 := x in
           rotl64 (lane s x0 y0) (nth (x0 + 5 * y0)%nat rotationOffsets 0)).

(** Modelled from the spec: the step chi of the missing hash function. *)
Definition chi (s : list N) : list N :=
  build (fun x y =>
           N.lxor (lane s x y)
             (N.land (N.lxor (lane s (x + 1) y) (N.ones 64))
                     (lane s (x + 2) y))).

(** Modelled from the spec: the step iota of the missing hash function. *)
Definition iota (rc : N) (s : list N) : list N :=
  match s with
  | a :: rest => N.lxor a rc :: rest
  | [] => []
  end.

(** Modelled from the spec: one round of the missing hash function. *)
Definition round (s : list N) (rc : N) : list N :=
  iota rc (chi (rhoPi (theta s))).

(** Modelled from the spec: the permutation Keccak-f[1600] of the missing
    hash function, 24 rounds. *)
Definition keccakF (s : list N) : list N := fold_left round roundConstants s.

(** Modelled from the spec: a lane read from up to 8 bytes, least
    significant first, for the missing hash function. *)
Definition laneOfBytes (bs : list byte) : N :=
  fold_right (fun b acc => Byte.to_N b + 256 * acc) 0 bs.

(** Modelled from the spec: byte [i] of a lane, for the missing hash
    function. *)
Definition byteOfLane (n : N) (i : nat) : byte :=
  default x00 (Byte.of_N (N.shiftr n (8 * N.of_nat i) mod 256)).

(** Modelled from the spec: the rate of Keccak-256 in bytes. *)
Definition rate : nat := 136.

(** Modelled from the spec: the padding of the missing hash function, a
    [1] bit, zeros, and a [1] bit at the end of the block. *)
Definition pad (msg : list byte) : list byte :=
  let q := (rate - length msg mod rate)%nat in
  match q with
  | 1%nat => msg ++ [x81]
  | _ => msg ++ [x01] ++ repeat x00 (q - 2) ++ [x80]
  end.

(** Modelled from the spec: the first [n] lanes of a block, for the missing
    hash function. *)
Fixpoint lanesOf (n : nat) (bs : list byte) : list N :=
  match n with
  | O => []
  | S n' => laneOfBytes (firstn 8 bs) :: lanesOf n' (skipn 8 bs)
  end.

(** Modelled from the spec: a block is added into the state, which is then
    permuted, in the missing hash function. *)
Definition absorbBlock (s : list N) (block : list byte) : list N :=
  let ls := lanesOf 17 block in
  keccakF (map (fun i => N.lxor (nth i s 0) (nth i ls 0)) (seq 0 25)).

(** Modelled from the spec: the blocks of the padded message are absorbed
    one after the other, in the missing hash function. *)
Fixpoint absorb (blocks : nat) (s : list N) (bs : list byte) : list N :=
  match blocks with
  | O => s
  | S blocks' => absorb blocks' (absorbBlock s (firstn rate bs)) (skipn rate bs)
  end.

(** Modelled from the spec: Keccak-256, the first 32 bytes of the state
    after the padded message has been absorbed. *)
Definition keccak256 (msg : list byte) : list byte :=
  let padded := pad msg in
  let s := absorb (length padded / rate) (repeat 0 25) padded in
  map (fun i => byteOfLane (nth (i / 8) s 0) (i mod 8)) (seq 0 32).
End Keccak.

(** ** The core behind the dispatcher, as the specification describes it

    handle-send-transaction.ts, handle-call.ts,
    handle-get-transaction-receipt.ts, handle-get-logs.ts, the blockchain and
    the world state are not among the sources.  The definitions of this
    module follow the specification's data model and its sections on the
    world state, the transaction processor, the blockchain and the RPC
    methods.  The bytecode interpreter, signature recovery, the encoding of
    a transaction that is hashed, and the formatters stay parameters. *)

Module Core.
Local Open Scope N_scope.

#[global] Instance byte_eq_dec : EqDecision byte := Byte.byte_eq_dec.
#[global] Instance byte_countable : Countable byte :=
  inj_countable Byte.to_N Byte.of_N Byte.of_to_N.

(** Modelled from the spec: the account type of the world state
    (src/evm/world) is missing.  An address and a word are written as
    numbers; the storage trie and the code store of an account are the map
    and the bytes they commit to. *)
Record Account : Type :=
  { nonce : N;
    balance : N;
    storage : gmap N N;
    code : list byte }.

(** Modelled from the spec: the zeroed default account. *)
Definition emptyAccount : Account :=
  {| nonce := 0; balance := 0; storage := ∅; code := [] |}.

(** Modelled from the spec: the typed transaction and call request
    (src/formatters) is missing; a transaction as submitted. *)
Record Transaction : Type :=
  { tx_from : option N;
    tx_to : option N;               (* absent: CREATE *)
    tx_value : N;
    tx_gas : N;
    tx_gas_price : N;
    tx_data : list byte;
    tx_nonce : option N }.

(** Modelled from the spec: the log type is missing; address, topics (each
    a 32-byte hash) and data. *)
Record LogEntry : Type :=
  { log_address : N;
    log_topics : list (list byte);
    log_data : list byte }.

(** Modelled from the spec: the receipt type is missing; a hash is written
    as its 32 bytes. *)
Record Receipt : Type :=
  { tx_hash : list byte;
    block_number : N;
    tx_index : N;
    receipt_from : N;
    receipt_to : option N;
    contract_address : option N;
    gas_used : N;
    status : bool;
    logs : list LogEntry }.

(** Modelled from the spec: the block type (src/evm/blockchain) is missing;
    a block with the fields the queries read ([parent_hash], [timestamp]
    and [state_root] are left out). *)
Record Block : Type :=
  { number : N;
    transactions : list Transaction;
    receipts : list Receipt }.

(** Modelled from the spec: the [Blockchain] class (src/evm/blockchain) is
    missing; the block sequence with the receipt index
    [receipt_by_tx_hash]. *)
Record Chain : Type :=
  { blocks : list Block;
    receipt_by_tx_hash : gmap (list byte) Receipt }.

(** Modelled from the spec: [Blockchain.fromDb] is missing; without stored
    pointers the chain starts as block 0 alone. *)
Definition genesis : Chain :=
  {| blocks := [ {| number := 0; transactions := []; receipts := [] |} ];
     receipt_by_tx_hash := ∅ |}.

(** Modelled from the spec: block numbers are contiguous from 0, so the
    latest block is the last of the sequence. *)
Definition latest (bc : Chain) : N := N.of_nat (length (blocks bc)) - 1.

(** Modelled from the spec: the [WorldState] class (src/evm/world) is
    missing; [get_account] gives a zeroed account when the address is
    absent. *)
Definition get_account (ws : gmap N Account) (a : N) : Account :=
  default emptyAccount (ws !! a).

(** Modelled from the spec: [get_code] of the world state, empty when the
    address is absent. *)
Definition get_code (ws : gmap N Account) (a : N) : list byte :=
  code (get_account ws a).

(** Modelled from the spec: the overlay of the world state is missing; it
    buffers account writes and the set of accounts marked for
    self-destruction. *)
Record Overlay : Type :=
  { writes : gmap N Account;
    destroyed : gset N }.

(** Modelled from the spec: [snapshot()], a fresh overlay. *)
Definition snapshot : Overlay := {| writes := ∅; destroyed := ∅ |}.

(** Modelled from the spec: an overlay reads its own writes first. *)
Definition read (ws : gmap N Account) (ov : Overlay) (a : N) : Account :=
  match writes ov !! a with
  | Some acct => acct
  | None => get_account ws a
  end.

(** Modelled from the spec: an account write is buffered in the overlay. *)
Definition write (a : N) (acct : Account) (ov : Overlay) : Overlay :=
  {| writes := <[a := acct]> (writes ov); destroyed := destroyed ov |}.

(** Modelled from the spec: [commit()] on the outermost overlay folds the
    writes into the world and drops the destroyed accounts; an overlay that
    is not committed is discarded. *)
Definition commit (ws : gmap N Account) (ov : Overlay) : gmap N Account :=
  filter (fun kv => kv.1 ∉ destroyed ov) (writes ov ∪ ws).

(** Modelled from the spec: the interpreter (src/evm/vm) is missing; what
    it is called with. *)
Record Message : Type :=
  { caller : N;
    callee : option N;              (* absent: CREATE with [data] as initcode *)
    value : N;
    gas_limit : N;
    gas_price : N;
    data : list byte }.

(** Modelled from the spec: what the missing interpreter answers. *)
Record Outcome : Type :=
  { success : bool;                 (* false: reverted, out of gas, ... *)
    gas_remaining : N;
    refunds : N;
    returned : list byte;
    emitted : list LogEntry;
    created : option N }.

(** Modelled from the spec: the typed log request (src/formatters) is
    missing; a topic slot is a wildcard or a set of values (a single value
    is a set of one). *)
Record LogFilter : Type :=
  { fromBlock : option N;
    toBlock : option N;
    filter_address : option N;
    filter_topics : list (option (list (list byte))) }.

(** Modelled from the spec: the typed log response (src/formatters) is
    missing; a log with its place in the chain. *)
Record LogRecord : Type :=
  { record_log : LogEntry;
    record_block : N;
    record_tx_hash : list byte;
    record_index : N }.

Section Core.
(** The interpreter runs a message over the world and an overlay. *)
Context (evm : gmap N Account -> Message -> Overlay -> Outcome * Overlay).
(** Signature recovery, for a transaction without [from]. *)
Context (recoverSender : Transaction -> option N).
(** The encoding of a transaction that its hash is taken of. *)
Context (encodeTransaction : Transaction -> list byte).
(** The formatters between wire values and typed values. *)
Context (fromRawTransaction : JsVal -> Completion Transaction)
        (fromRawLogFilter : JsVal -> Completion LogFilter)
        (toRawLogRecord : LogRecord -> JsVal)
        (toRawReceipt : option Receipt -> JsVal)
        (addressFromString : JsVal -> Completion N).

(** Modelled from the spec: the coinbase of this core is the zero
    address. *)
Definition coinbase : N := 0.

(** Modelled from the spec: the transaction processor
    (handle-send-transaction.ts) is missing.  Step 1: the sender is [from] if
    present, and recovered from the signature otherwise. *)
Definition resolveSender (tx : Transaction) : option N :=
  match tx_from tx with
  | Some a => Some a
  | None => recoverSender tx
  end.

(** Modelled from the spec: step 2 of the missing transaction processor,
    the balance covers [gas_limit * gas_price + value], and the nonce, when
    given, is the account's. *)
Definition validFor (acct : Account) (tx : Transaction) : bool :=
  (tx_gas tx * tx_gas_price tx + tx_value tx <=? balance acct)%N
  && (default (nonce acct) (tx_nonce tx) =? nonce acct)%N.


(** Modelled from the spec: a balance credit (the refund and the fee of
    step 6), written to the overlay. *)
Definition credit (ws : gmap N Account) (a : N) (amount : N) (ov : Overlay)
  : Overlay :=
  let acct := read ws ov a in
  write a {| nonce := nonce acct; balance := balance acct + amount;
             storage := storage acct; code := code acct |} ov.

(** Modelled from the spec: the hash of a transaction is missing with the
    transaction processor; a hash is the Keccak-256 digest, here of the
    transaction's encoding. *)
Definition txHashOf (tx : Transaction) : list byte :=
  Keccak.keccak256 (encodeTransaction tx).

(** Modelled from the spec: the transaction as the missing processor
    accepts it, with the sender resolved and an absent nonce filled from
    the account. *)
Definition accepted (sender : N) (acct : Account) (tx : Transaction)
  : Transaction :=
  {| tx_from := Some sender; tx_to := tx_to tx;
     tx_value := tx_value tx; tx_gas := tx_gas tx;
     tx_gas_price := tx_gas_price tx;
     tx_data := tx_data tx;
     tx_nonce := Some (nonce acct) |}.

(** Modelled from the spec: step 3 of the missing transaction processor, an
    outermost overlay that holds the fee debit and the nonce bump. *)
Definition charge (sender : N) (acct : Account) (tx : Transaction) : Overlay :=
  write sender
    {| nonce := nonce acct + 1;
       balance := balance acct - tx_gas tx * tx_gas_price tx;
       storage := storage acct; code := code acct |}
    snapshot.

(** Modelled from the spec: step 4 of the missing transaction processor,
    the message that is executed: CREATE when [to] is absent, CALL
    otherwise. *)
Definition messageOf (sender : N) (tx : Transaction) : Message :=
  {| caller := sender; callee := tx_to tx; value := tx_value tx;
     gas_limit := tx_gas tx; gas_price := tx_gas_price tx;
     data := tx_data tx |}.

(** Modelled from the spec: step 5 of the missing transaction processor,
    the gas used, with the refunds capped at half of what was spent. *)
Definition gasUsed (tx : Transaction) (out : Outcome) : N :=
  let spent := tx_gas tx - gas_remaining out in
  spent + N.min (refunds out) (spent / 2).

(** Modelled from the spec: step 6 of the missing transaction processor,
    the refund to the sender and the fee to the coinbase. *)
Definition settle (ws : gmap N Account) (sender : N) (tx : Transaction)
    (out : Outcome) (kept : Overlay) : Overlay :=
  credit ws coinbase (gasUsed tx out * tx_gas_price tx)
    (credit ws sender ((tx_gas tx - gasUsed tx out) * tx_gas_price tx) kept).

(** Modelled from the spec: step 7 of the missing transaction processor,
    the receipt, with a [status] that reflects success and no logs of a
    reverted execution; [tx] is the accepted transaction. *)
Definition receiptOf (bc : Chain) (sender : N) (tx : Transaction)
    (out : Outcome) : Receipt :=
  {| tx_hash := txHashOf tx;
     block_number := N.of_nat (length (blocks bc));
     tx_index := 0;
     receipt_from := sender;
     receipt_to := tx_to tx;
     contract_address := created out;
     gas_used := gasUsed tx out;
     status := success out;
     logs := if success out then emitted out else [] |}.

(** Modelled from the spec: step 8 of the missing transaction processor, a
    block that holds the one transaction is appended, and its receipt is
    indexed by the transaction hash. *)
Definition appendBlock (bc : Chain) (tx : Transaction) (receipt : Receipt)
  : Chain :=
  {| blocks :=
       blocks bc
       ++ [ {| number := N.of_nat (length (blocks bc));
               transactions := [tx];
               receipts := [receipt] |} ];
     receipt_by_tx_hash :=
       <[tx_hash receipt := receipt]> (receipt_by_tx_hash bc) |}.

(** Modelled from the spec: [handleSendTransaction]
    (handle-send-transaction.ts) is missing.  Steps 1 to 8 of the transaction
    processor; the result is the transaction hash as 0x-prefixed hex.  A
    transaction that fails validation is refused with [InvalidTransaction]:
    no state change, no block.  A reverted execution keeps the nonce bump
    and the fee only. *)
Definition handleSendTransaction (tx : Transaction)
  : M (gmap N Account * Chain) JsVal :=
  fun '(ws, bc) =>
    match resolveSender tx with
    | None => (Throw (RpcError InvalidTransaction), (ws, bc))
    | Some sender =>
        let acct := get_account ws sender in
        if negb (validFor acct tx) then
          (Throw (RpcError InvalidTransaction), (ws, bc))
        else
          let sent := accepted sender acct tx in
          let charged := charge sender acct tx in
          let '(out, executed) := evm ws (messageOf sender tx) charged in
          let kept := if success out then executed else charged in
          let receipt := receiptOf bc sender sent out in
          (Return (VStr (bufferToHex (tx_hash receipt))),
           (commit ws (settle ws sender tx out kept),
            appendBlock bc sent receipt))
    end.

(** Modelled from the spec: the message of a call request, for the missing
    [handleCall].  A request without [from] is run from the zero address. *)
Definition callMessage (req : Transaction) : Message :=
  {| caller := default 0%N (tx_from req); callee := tx_to req;
     value := tx_value req; gas_limit := tx_gas req;
     gas_price := tx_gas_price req; data := tx_data req |}.

(** Modelled from the spec: [handleCall] (handle-call.ts) is missing.  The
    interpreter runs against a throwaway overlay, the result is the
    returned data, nothing is committed. *)
Definition handleCall (req : Transaction) : M (gmap N Account) (list byte) :=
  fun ws =>
    let '(out, _) := evm ws (callMessage req) snapshot in
    (Return (returned out), ws).

(** Modelled from the spec: [handleGetTransactionReceipt]
    (handle-get-transaction-receipt.ts) is missing.  The receipt, or null;
    the parameter is a hash in hex, anything else is [BadParams]. *)
Definition handleGetTransactionReceipt (param : JsVal)
  : M Chain (option Receipt) :=
  fun bc =>
    match param with
    | VStr s =>
        match hexToBuffer s with
        | Some hash => (Return (receipt_by_tx_hash bc !! hash), bc)
        | None => (Throw (RpcError BadParams), bc)
        end
    | _ => (Throw (RpcError BadParams), bc)
    end.

(** Modelled from the spec: [getAccountCode] (src/evm/vm) is missing; the
    code of the account, read from the world state. *)
Definition getAccountCode (a : N) : M (gmap N Account) (list byte) :=
  fun ws => (Return (get_code ws a), ws).

(** Modelled from the spec: the filter of the missing [getLogs]; a topic
    slot matches when it is a wildcard or holds the log's topic at that
    position. *)
Fixpoint topicsMatch (slots : list (option (list (list byte))))
    (topics : list (list byte)) : bool :=
  match slots, topics with
  | [], _ => true
  | None :: slots', [] => topicsMatch slots' []
  | None :: slots', _ :: topics' => topicsMatch slots' topics'
  | Some _ :: _, [] => false
  | Some allowed :: slots', t :: topics' =>
      bool_decide (t ∈ allowed) && topicsMatch slots' topics'
  end.

(** Modelled from the spec: a log matches a filter by address and by
    topics. *)
Definition logMatches (f : LogFilter) (l : LogEntry) : bool :=
  match filter_address f with
  | Some a => (a =? log_address l)%N
  | None => true
  end
  && topicsMatch (filter_topics f) (log_topics l).

(** Modelled from the spec: the logs of a receipt, with their log index. *)
Definition recordsOfReceipt (r : Receipt) : list LogRecord :=
  imap (fun i l => {| record_log := l; record_block := block_number r;
                      record_tx_hash := tx_hash r;
                      record_index := N.of_nat i |})
    (logs r).

(** Modelled from the spec: the logs of a block, in receipt order. *)
Definition recordsOfBlock (b : Block) : list LogRecord :=
  concat (map recordsOfReceipt (receipts b)).

(** Modelled from the spec: [getLogs] (handle-get-logs.ts) is missing.
    [fromBlock > toBlock] is a [BadFilter]; otherwise the logs of the blocks
    in range that match, in block then log order.  An absent bound is the
    latest block. *)
Definition getLogs (f : LogFilter) : M Chain (list LogRecord) :=
  fun bc =>
    let lo := default (latest bc) (fromBlock f) in
    let hi := default (latest bc) (toBlock f) in
    if (hi <? lo)%N then (Throw (RpcError BadFilter), bc)
    else
      (Return
         (List.filter (fun r => logMatches f (record_log r))
            (concat
               (map recordsOfBlock
                  (List.filter
                     (fun b => (lo <=? number b)%N && (number b <=? hi)%N)
                     (blocks bc))))),
       bc).

(** Modelled from the spec: the imports of evm-provider.ts that are
    missing, read as above. *)
Definition handlers : Imports.Handlers :=
  {| Imports.WorldState := gmap N Account;
     Imports.Blockchain := Chain;
     Imports.TransactionRequest := Transaction;
     Imports.CallRequest := Transaction;
     Imports.LogRequest := LogFilter;
     Imports.TransactionReceipt := Receipt;
     Imports.LogResponse := LogRecord;
     Imports.Address := N;
     Imports.fromRawTransactionRequest := fromRawTransaction;
     Imports.fromRawCallRequest := fromRawTransaction;
     Imports.fromRawLogRequest := fromRawLogFilter;
     Imports.toRawLogResponse := toRawLogRecord;
     Imports.toRawTransactionReceipt := toRawReceipt;
     Imports.addressFromString := addressFromString;
     Imports.handleSendTransaction := handleSendTransaction;
     Imports.handleCall := handleCall;
     Imports.handleGetTransactionReceipt := handleGetTransactionReceipt;
     Imports.getAccountCode := getAccountCode;
     Imports.getLogs := getLogs |}.
End Core.
End Core.

(** ** Fixtures

    Concrete stand-ins for the parameters, for running the definitions on
    examples: an interpreter that returns its call data, a transaction
    encoding of two bytes, formatters over plain objects, a provider that
    records the requests it is sent, and a small ABI. *)

Module Fixture.
Import Core.
Local Open Scope N_scope.

(** *** A provider over the core *)

Definition echo (ws : gmap N Account) (msg : Message) (ov : Overlay)
  : Outcome * Overlay :=
  ({| success := true; gas_remaining := gas_limit msg; refunds := 0;
      returned := data msg; emitted := []; created := None |}, ov).

Definition noSignature (tx : Transaction) : option N := None.

(** A transaction is encoded as its sender and its nonce, a byte each. *)
Definition encodeTransaction (tx : Transaction) : list byte :=
  [ default x00 (Byte.of_N (default 0 (tx_from tx) mod 256));
    default x00 (Byte.of_N (default 0 (tx_nonce tx) mod 256)) ].

Definition natural (v : JsVal) : option N :=
  match v with
  | VNum n => if (0 <=? n)%Z then Some (Z.to_N n) else None
  | _ => None
  end.

Definition fromRawTransaction (v : JsVal) : Completion Transaction :=
  match v with
  | VObj props =>
      Return {| tx_from := natural (getMember props "from");
                tx_to := natural (getMember props "to");
                tx_value := default 0 (natural (getMember props "value"));
                tx_gas := default 0 (natural (getMember props "gas"));
                tx_gas_price := default 0 (natural (getMember props "gasPrice"));
                tx_data := [];
                tx_nonce := natural (getMember props "nonce") |}
  | _ => Throw (RpcError BadParams)
  end.

Definition fromRawLogFilter (v : JsVal) : Completion LogFilter :=
  match v with
  | VObj props =>
      Return {| fromBlock := natural (getMember props "fromBlock");
                toBlock := natural (getMember props "toBlock");
                filter_address := natural (getMember props "address");
                filter_topics := [] |}
  | _ => Throw (RpcError BadParams)
  end.

Definition toRawLogRecord (r : LogRecord) : JsVal :=
  VObj [ ("blockNumber", VStr (numberToHex (record_block r)));
         ("transactionHash", VStr (bufferToHex (record_tx_hash r)));
         ("logIndex", VStr (numberToHex (record_index r))) ].

Definition toRawReceipt (r : option Receipt) : JsVal :=
  match r with
  | Some r =>
      VObj [ ("transactionHash", VStr (bufferToHex (tx_hash r)));
             ("blockNumber", VStr (numberToHex (block_number r)));
             ("status", VStr (numberToHex (if status r then 1 else 0))) ]
  | None => VNull
  end.

Definition addressFromString (v : JsVal) : Completion N :=
  match natural v with
  | Some a => Return a
  | None => Throw (JsError "Invalid address")
  end.

Definition handlers : Imports.Handlers :=
  Core.handlers echo noSignature encodeTransaction fromRawTransaction
    fromRawLogFilter toRawLogRecord toRawReceipt addressFromString.

(** Account 1 holds funds; the chain is at its first block. *)
Definition funded : gmap N Account :=
  {[ 1 := {| nonce := 0; balance := 10000000000; storage := ∅; code := [] |} ]}.

Definition provider : Provider.EvmProvider handlers :=
  Provider.Build_EvmProvider handlers funded genesis.

Definition transfer : JsVal :=
  VObj [ ("from", VNum 1); ("to", VNum 2); ("value", VNum 5);
         ("gas", VNum 21000); ("gasPrice", VNum 50000) ].


Definition backwardsFilter : JsVal :=
  VObj [ ("fromBlock", VNum 3); ("toBlock", VNum 1) ].

(** *** A provider that records what it is sent *)

Definition Recorder : Type := list (string * option (list JsVal)).

#[global] Instance Recorder_EthereumProvider : EthereumProvider Recorder :=
  { provider_send := fun method params sent =>
      (Return (VArr []), sent ++ [(method, params)]) }.

(** *** A contract *)

Import Contract.

Record Log : Type := { topic0 : string; payload : string }.
Record EventLog : Type := { ev_event : option string; ev_payload : string }.

Definition abiMethodToString (d : AbiDefinition) : string :=
  (propertyKey (name d) ++ "("
   ++ String.concat "," (map input_type (default [] (inputs d))) ++ ")")%string.

(** Stand-ins for the Keccak-based signatures and the ABI encoder. *)
Definition encodeSignature (s : string) : string := ("0x" ++ s)%string.
Definition encodeParameter (ty : string) (v : JsVal) : Completion string :=
  match v with
  | VStr s => Return s
  | _ => Throw (JsError "invalid parameter")
  end.

Definition decodeAnyEvent (abi : list AbiDefinition) (log : Log) : EventLog :=
  match List.find (fun d => String.eqb (type d) "event"
                            && optionEqb (signature d) (topic0 log)) abi with
  | Some d => {| ev_event := name d; ev_payload := payload log |}
  | None => {| ev_event := None; ev_payload := payload log |}
  end.

Definition inputLogFormatter
    (o : @GetLogOptions N) : JsVal :=
  VObj [ ("address", match opt_address o with
                     | Some a => VNum (Z.of_N a)
                     | None => VUndefined
                     end) ].

Definition getPastLogsPayload (o : @GetLogOptions N)
  : Eth.RequestPayload (list Log) :=
  {| Eth.method := "eth_getLogs";
     Eth.params := Some [inputLogFormatter o];
     Eth.format := fun _ => Return [] |}.

Definition function (n : string) (tys : list string) : AbiDefinition :=
  {| type := "function"; name := Some n;
     inputs := Some (map (fun ty => {| input_name := "";
                                       input_type := ty;
                                       indexed := None |}) tys);
     anonymous := None; stateMutability := None; constant := None;
     payable := None; signature := None |}.

Definition eventDef (n : string) : AbiDefinition :=
  {| type := "event"; name := Some n; inputs := Some [];
     anonymous := None; stateMutability := None; constant := None;
     payable := None; signature := None |}.

Definition noOptions : @ContractOptions N :=
  {| from := None; gasPrice := None; gas := None |}.

Definition noFilter : @GetLogOptions N :=
  {| opt_filter := None; opt_toBlock := None; opt_fromBlock := None;
     opt_address := None; opt_topics := None |}.

(** Two overloads of [transfer], and two events. *)
Definition abi : list AbiDefinition :=
  [ function "transfer" ["address"];
    function "transfer" ["address"; "uint256"];
    eventDef "Transfer";
    eventDef "hasOwnProperty" ].

Definition contractAt (addr : option N) : @Contract.Contract N unit :=
  newContract abiMethodToString encodeSignature encodeSignature
    abi addr noOptions None.

Definition callInherited (key : string) : @TxFactory N unit :=
  fun _ _ => Throw JsTypeError.

Definition callFunctionMember (key : string) : @TxFactory N unit :=
  fun _ _ => Throw JsTypeError.

Definition receiptWith (ls : list Log)
  : @TransactionReceipt N Log EventLog unit :=
  {| logs := Some ls; events := None; unnamedEvents := None;
     contractAddress := None; fields := tt |}.

(** A subscription is its parameters; [subscribe] sends them. *)
Definition newSubscription (params : list JsVal) (listener : @Listener unit)
  : list JsVal := params.
Definition subscribe (sub : list JsVal) : M Recorder (list JsVal) :=
  fun sent => (Return sub, sent ++ [("eth_subscribe", Some sub)]).
Definition emitData (ev : EventLog) (sub : list JsVal) : list JsVal := sub.
Definition emitError (e : Exn) (sub : list JsVal) : list JsVal := sub.

Definition logOf (sig data : string) : Log :=
  {| topic0 := sig; payload := data |}.

(** A receipt with one log, of the event [hasOwnProperty()]. *)
Definition oddReceipt : @TransactionReceipt N Log EventLog unit :=
  receiptWith [ logOf "0xhasOwnProperty()" "a" ].

(** *** An [Eth] with a wallet *)

(** A wallet lists its accounts by address; an account is its key. *)
Definition walletGet (w : list (N * string)) (a : N) : option string :=
  snd <$> List.find (fun entry => (fst entry =? a)%N) w.

Definition accountSign (key data : string) : string :=
  (key ++ ":" ++ data)%string.

Definition stringAnswer (v : JsVal) : Completion string :=
  match v with
  | VStr s => Return s
  | _ => Throw (JsError "not a string")
  end.

Definition signPayload (defaultFrom : option N) (a : N) (data : string)
  : Eth.RequestPayload string :=
  {| Eth.method := "eth_sign";
     Eth.params := Some [VNum (Z.of_N a); VStr data];
     Eth.format := stringAnswer |}.

Definition gasPricePayload : Eth.RequestPayload string :=
  {| Eth.method := "eth_gasPrice"; Eth.params := Some [];
     Eth.format := stringAnswer |}.

Definition blockNumberPayload : Eth.RequestPayload string :=
  {| Eth.method := "eth_blockNumber"; Eth.params := Some [];
     Eth.format := stringAnswer |}.

(** An [Eth] over the recording provider, with account 1 in its wallet. *)
Definition eth : @Eth.Eth Recorder N (list (N * string)) :=
  {| Eth.provider := [];
     Eth.defaultFromAddress := None;
     Eth.wallet := Some [(1, "key-of-1")] |}.

Definition subscribed (kind : string) : M Recorder (list JsVal) :=
  fun sent => (Return [VStr kind], sent ++ [("eth_subscribe", Some [VStr kind])]).

Definition subscribeForLogs (args : list JsVal)
  : M (@Eth.Eth Recorder N (list (N * string))) (list JsVal) :=
  Eth.withProvider (subscribed "logs").

(** [event Transfer(address indexed src, address indexed dst, uint wad)]. *)
Definition transferEvent : AbiDefinition :=
  {| type := "event"; name := Some "Transfer";
     inputs := Some [ {| input_name := "src"; input_type := "address";
                         indexed := Some true |};
                      {| input_name := "dst"; input_type := "address";
                         indexed := Some true |};
                      {| input_name := "wad"; input_type := "uint256";
                         indexed := Some false |} ];
     anonymous := Some false; stateMutability := None; constant := None;
     payable := None; signature := Some "0xddf252ad" |}.

Definition token : @Contract.Contract N unit :=
  {| jsonInterface := [transferEvent]; address := Some 7;
     options := noOptions; wallet := None |}.

(** Options of a caller that names another contract and a block range. *)
Definition foreignOptions : @GetLogOptions N :=
  {| opt_filter := None; opt_toBlock := Some (VStr "latest");
     opt_fromBlock := Some (VNum 0); opt_address := Some 99;
     opt_topics := None |}.

(** What [getLogOptions] answers for [Transfer] on [token]. *)
Definition transferLogOptions : @GetLogOptions N :=
  {| opt_filter := None; opt_toBlock := None; opt_fromBlock := None;
     opt_address := Some 7;
     opt_topics := Some [TopicOne "0xddf252ad"; TopicNull; TopicNull] |}.

(** A receipt with two [Transfer] logs around one of no known event. *)
Definition transfersReceipt : @TransactionReceipt N Log EventLog unit :=
  receiptWith [ logOf "0xTransfer()" "a"; logOf "0x1234" "b";
                logOf "0xTransfer()" "c" ].

Definition ping : AbiDefinition := function "ping" [].
Definition transferTo : AbiDefinition :=
  setSignature "0xtransfer(address)" (function "transfer" ["address"]).
Definition transferAmount : AbiDefinition :=
  setSignature "0xtransfer(address,uint256)"
    (function "transfer" ["address"; "uint256"]).
End Fixture.

(** * Properties *)

(** ** Hex encodings *)

Example numberToHex_50000 : numberToHex 50000 = "0xc350".
Proof. reflexivity. Qed.

Example numberToHex_zero : numberToHex 0 = "0x0".
Proof. reflexivity. Qed.





(** ** Keccak-256 *)

(** The digests of the empty string and of ["abc"], and the first four
    bytes of the digest of [transfer(address,uint256)]. *)
Example keccak256_empty :
  bufferToHex (Keccak.keccak256 [])
  = "0xc5d2460186f7233c927e7db2dcc703c0e500b653ca82273b7bfad8045d85a470".
Proof. vm_compute. reflexivity. Qed.

Example keccak256_abc :
  bufferToHex (Keccak.keccak256 (list_byte_of_string "abc"))
  = "0x4e03657aea45a94fc7d47ba826c8d667c0d1e6e33a64a036ec44f58fa12d6c45".
Proof. vm_compute. reflexivity. Qed.

Example keccak256_transfer :
  bufferToHex
    (firstn 4
       (Keccak.keccak256 (list_byte_of_string "transfer(address,uint256)")))
  = "0xa9059cbb".
Proof. vm_compute. reflexivity. Qed.

(** ** The dispatcher *)

Section DispatcherFacts.
Import Imports.
Context (H : Handlers).
Implicit Types (this : Provider.EvmProvider H) (method : string)
  (params : option (list JsVal)).

Lemma eqb_not_implemented method name :
  ~ In method Provider.implementedMethods ->
  In name Provider.implementedMethods ->
  String.eqb method name = false.
Proof.
  intros Hnot Hin. apply String.eqb_neq. intros ->. contradiction.
Qed.

(** C2.  [send('eth_gasPrice', params)] answers the hex quantity of the
    constant 50000, ["0xc350"], whatever [params] is (absent and empty
    included), without an error and without touching the provider. *)
Theorem send_gasPrice params this :
  Provider.send H "eth_gasPrice" params this
    = (Return (VStr (numberToHex 50000)), this)
  /\ numberToHex 50000 = "0xc350".
Proof. split; reflexivity. Qed.

(** C3.  For a method other than [eth_gasPrice], when [params] is absent
    or its first element is falsy (an empty array has none), [send] throws
    an error with an empty message.  No handler has run: the result is the
    same for every choice of handlers, and the provider is as before. *)
Theorem send_missing_params method params this :
  method <> "eth_gasPrice" ->
  (forall ps, params = Some ps -> truthy (index ps 0) = false) ->
  Provider.send H method params this = (Throw (JsError ""), this).
Proof.
  intros Hne Hfalsy. unfold Provider.send.
  apply String.eqb_neq in Hne. rewrite Hne.
  destruct params as [ps|]; [|reflexivity].
  rewrite (Hfalsy ps eq_refl). reflexivity.
Qed.

(** C1, as amended.  For a method name that is none of the implemented
    ones, [send] does not fail with [MethodNotFound]: with a truthy first
    parameter it returns [undefined] and leaves the provider as it was;
    with absent parameters or a falsy first parameter it throws the error
    with the empty message. *)
Theorem send_unimplemented_method method params this :
  ~ In method Provider.implementedMethods ->
  Provider.send H method params this
    = match params with
      | Some ps =>
          if truthy (index ps 0) then (Return VUndefined, this)
          else (Throw (JsError ""), this)
      | None => (Throw (JsError ""), this)
      end.
Proof.
  intros Hnot. unfold Provider.send.
  rewrite (eqb_not_implemented method "eth_gasPrice" Hnot) by (cbn; tauto).
  destruct params as [ps|]; [|reflexivity].
  destruct (truthy (index ps 0)); [|reflexivity]. cbn [negb].
  rewrite !(eqb_not_implemented method _ Hnot) by (cbn; tauto).
  reflexivity.
Qed.

(** C7.  [on], [removeListener] and [removeAllListeners] throw for every
    notification and listener, and hand the provider back as it was: it
    has no field in which a listener could be kept. *)
Theorem subscriptions_not_implemented {L : Type}
    (notification : JsVal) (listener : L) this :
  Provider.on H notification listener this
    = (Throw (JsError "Method not implemented."), this)
  /\ Provider.removeListener H notification listener this
    = (Throw (JsError "Method not implemented."), this)
  /\ Provider.removeAllListeners H notification this
    = (Throw (JsError "Method not implemented."), this).
Proof. repeat split. Qed.
End DispatcherFacts.

(** C1: [eth_blockNumber] is not implemented, and [send] answers it with
    [undefined] instead of failing. *)
Lemma send_blockNumber_returns_undefined :
  existsb (String.eqb "eth_blockNumber") Provider.implementedMethods = false
  /\ Provider.send Fixture.handlers "eth_blockNumber" (Some [VStr "latest"])
       Fixture.provider
     = (Return VUndefined, Fixture.provider).
Proof. split; reflexivity. Qed.

(** C1 at [net_version] with a truthy parameter. *)
Lemma send_unimplemented_method_witness :
  Provider.send Fixture.handlers "net_version" (Some [VBool true])
    Fixture.provider
  = (Return VUndefined, Fixture.provider).
Proof.
  apply (send_unimplemented_method Fixture.handlers "net_version"
           (Some [VBool true]) Fixture.provider).
  cbn. intuition discriminate.
Defined.

(** C3 at [eth_call] with an empty parameter array. *)
Lemma send_missing_params_witness :
  Provider.send Fixture.handlers "eth_call" (Some []) Fixture.provider
  = (Throw (JsError ""), Fixture.provider).
Proof.
  apply (send_missing_params Fixture.handlers "eth_call" (Some [])
           Fixture.provider).
  - discriminate.
  - intros ps [= <-]. reflexivity.
Defined.

(** ** The dispatcher over the core *)

Section CoreFacts.
Import Core.
Context (evm : gmap N Account -> Message -> Overlay -> Outcome * Overlay)
        (recoverSender : Transaction -> option N)
        (encodeTransaction : Transaction -> list byte)
        (fromRawTransaction : JsVal -> Completion Transaction)
        (fromRawLogFilter : JsVal -> Completion LogFilter)
        (toRawLogRecord : LogRecord -> JsVal)
        (toRawReceipt : option Receipt -> JsVal)
        (addressFromString : JsVal -> Completion N).

Local Abbreviation H :=
  (Core.handlers evm recoverSender encodeTransaction fromRawTransaction
     fromRawLogFilter toRawLogRecord toRawReceipt addressFromString).
Local Abbreviation txHashOf := (Core.txHashOf encodeTransaction).
Local Abbreviation receiptOf := (Core.receiptOf encodeTransaction).
Implicit Types (this : Provider.EvmProvider H) (raw : JsVal)
  (rest : list JsVal) (ws : gmap N Account) (ov : Overlay).

(** Entering the second [switch] of [send] with a truthy first parameter. *)
Ltac enter_send Htruthy :=
  unfold Provider.send;
  cbn [String.eqb Ascii.eqb Bool.eqb index nth];
  rewrite Htruthy; cbn [negb].

Lemma prefix_bufferToHex (buf : list byte) :
  String.prefix "0x" (bufferToHex buf) = true.
Proof.
  unfold bufferToHex.
  change ("0x" ++ bytesToHex buf)%string
    with (String "0" (String "x" (bytesToHex buf))).
  cbn. destruct (bytesToHex buf); reflexivity.
Qed.









(** C5.  [send('eth_call', [callreq, block])] returns the data that the
    execution of the call returns, as 0x-prefixed hex, and the provider is
    afterwards what it was before: world state and blockchain alike. *)
Theorem eth_call_leaves_state raw rest (req : Transaction) this :
  truthy raw = true ->
  fromRawTransaction raw = Return req ->
  exists (out : Outcome) (ov : Overlay),
    evm (Provider.worldState this) (callMessage req) snapshot = (out, ov)
    /\ Provider.send H "eth_call" (Some (raw :: rest)) this
       = (Return (VStr (bufferToHex (returned out))), this)
    /\ String.prefix "0x" (bufferToHex (returned out)) = true.
Proof.
  intros Htruthy Hraw. destruct this as [ws bc].
  destruct (evm ws (callMessage req) snapshot) as [out ov] eqn:Hrun.
  exists out, ov. split; [exact Hrun|]. split.
  - enter_send Htruthy.
    unfold bind, lift, ret, Provider.withWorldState. cbn. rewrite Hraw.
    unfold handleCall. rewrite Hrun. reflexivity.
  - apply prefix_bufferToHex.
Qed.

(** C6.  [send('eth_getLogs', [filter])] with a filter whose [fromBlock]
    is greater than its [toBlock] fails with [BadFilter]: no logs are
    returned, and the provider is as before. *)
Theorem eth_getLogs_bad_filter raw rest (f : LogFilter) (lo hi : N) this :
  truthy raw = true ->
  fromRawLogFilter raw = Return f ->
  fromBlock f = Some lo ->
  toBlock f = Some hi ->
  (hi < lo)%N ->
  Provider.send H "eth_getLogs" (Some (raw :: rest)) this
    = (Throw (RpcError BadFilter), this).
Proof.
  intros Htruthy Hraw Hlo Hhi Hlt. destruct this as [ws bc].
  enter_send Htruthy.
  unfold bind, lift, Provider.withBlockchain. cbn. rewrite Hraw.
  unfold getLogs. rewrite Hlo, Hhi. cbn [default]. unfold id.
  apply N.ltb_lt in Hlt. rewrite Hlt. reflexivity.
Qed.
End CoreFacts.



(** C5 at the same transfer as a call, with a block parameter. *)
Lemma eth_call_leaves_state_witness :
  exists out ov,
    Fixture.echo (Provider.worldState Fixture.provider)
      (Core.callMessage
         {| Core.tx_from := Some 1%N; Core.tx_to := Some 2%N;
            Core.tx_value := 5; Core.tx_gas := 21000;
            Core.tx_gas_price := 50000; Core.tx_data := [];
            Core.tx_nonce := None |})
      Core.snapshot = (out, ov)
    /\ Provider.send Fixture.handlers "eth_call"
         (Some [Fixture.transfer; VStr "latest"]) Fixture.provider
       = (Return (VStr (bufferToHex (Core.returned out))), Fixture.provider)
    /\ String.prefix "0x" (bufferToHex (Core.returned out)) = true.
Proof.
  apply (eth_call_leaves_state Fixture.echo Fixture.noSignature
           Fixture.encodeTransaction Fixture.fromRawTransaction
           Fixture.fromRawLogFilter Fixture.toRawLogRecord
           Fixture.toRawReceipt Fixture.addressFromString
           Fixture.transfer [VStr "latest"] _ Fixture.provider).
  - reflexivity.
  - reflexivity.
Defined.

(** C6 at a filter from block 3 to block 1. *)
Lemma eth_getLogs_bad_filter_witness :
  Provider.send Fixture.handlers "eth_getLogs"
    (Some [Fixture.backwardsFilter]) Fixture.provider
  = (Throw (RpcError BadFilter), Fixture.provider).
Proof.
  eapply (eth_getLogs_bad_filter Fixture.echo Fixture.noSignature
            Fixture.encodeTransaction Fixture.fromRawTransaction
            Fixture.fromRawLogFilter Fixture.toRawLogRecord
            Fixture.toRawReceipt Fixture.addressFromString
            Fixture.backwardsFilter [] _ 3%N 1%N Fixture.provider).
  - reflexivity.
  - reflexivity.
  - reflexivity.
  - reflexivity.
  - reflexivity.
Defined.

(** ** The Contract facade *)

Section ContractFacts.
Import Contract.
Context {Address Wallet Log EventLog Callback Subscription ReceiptFields : Type}.
Context (abiMethodToString : AbiDefinition -> string)
        (encodeFunctionSignature : string -> string)
        (encodeParameter : string -> JsVal -> Completion string)
        (decodeAnyEvent : list AbiDefinition -> Log -> EventLog)
        (event : EventLog -> option string)
        (inputLogFormatter : @GetLogOptions Address -> JsVal)
        (getPastLogsPayload :
           @GetLogOptions Address -> Eth.RequestPayload (list Log))
        (callInherited : string -> @TxFactory Address Wallet)
        (callFunctionMember : string -> @TxFactory Address Wallet).
Context {P : Type} `{EthereumProvider P}.
Context (newSubscription : list JsVal -> @Listener Callback -> Subscription)
        (subscribe : Subscription -> M P Subscription)
        (emitData : EventLog -> Subscription -> Subscription)
        (emitError : Exn -> Subscription -> Subscription).

Implicit Types (this : @Contract.Contract Address Wallet)
  (definition method d : AbiDefinition)
  (nextOverload : option (@TxFactory Address Wallet))
  (args : list JsVal)
  (methods : @Methods Address Wallet)
  (abi fs ds : list AbiDefinition).

Local Abbreviation getMethods :=
  (Contract.getMethods abiMethodToString encodeFunctionSignature callInherited
     callFunctionMember).
Local Abbreviation addMethod :=
  (Contract.addMethod abiMethodToString encodeFunctionSignature callInherited
     callFunctionMember).
Local Abbreviation storedKeys :=
  (Contract.storedKeys abiMethodToString encodeFunctionSignature).
Local Abbreviation resign :=
  (Contract.resign abiMethodToString encodeFunctionSignature).
Local Abbreviation signed :=
  (fun d => setSignature (encodeFunctionSignature (abiMethodToString d)) d).

(** *** Every registered method is an executor *)

Lemma bind_invariant {S A B} (Q : S -> Prop) (m : M S A) (k : A -> M S B)
    (s : S) :
  Q s ->
  (forall s', Q s' -> Q (snd (m s'))) ->
  (forall a s', Q s' -> Q (snd (k a s'))) ->
  Q (snd (bind m k s)).
Proof.
  intros Hs Hm Hk. unfold bind. specialize (Hm s Hs).
  destruct (m s) as [[a|e] s']; cbn [snd] in *; [apply Hk|]; exact Hm.
Qed.

Lemma forEach_invariant {S A} (Q : S -> Prop) (f : A -> M S unit)
    (l : list A) (s : S) :
  Q s ->
  (forall a s', Q s' -> Q (snd (f a s'))) ->
  Q (snd (forEach f l s)).
Proof.
  intros Hs Hf. revert s Hs.
  induction l as [|a l IH]; intros s Hs; [exact Hs|].
  cbn [forEach]. apply bind_invariant; [exact Hs | apply Hf |].
  intros _ s' Hs'. apply IH, Hs'.
Qed.

Lemma setMethod_executors (key : string) (f : @TxFactory Address Wallet)
    methods :
  (exists d n, f = executorFactory d n) ->
  allExecutors methods ->
  allExecutors (snd (setMethod key f methods)).
Proof.
  intros Hf [Hown Hproto]. unfold setMethod.
  destruct (String.eqb key "__proto__").
  - split; [exact Hown|]. cbn. intros g [= <-]. exact Hf.
  - match goal with |- context [if ?b then _ else _] => destruct b end.
    + split; assumption.
    + split; [|exact Hproto]. cbn. apply map_Forall_insert_2; assumption.
Qed.

Lemma addMethod_executors method methods :
  allExecutors methods -> allExecutors (snd (addMethod method methods)).
Proof.
  intros Hall. unfold Contract.addMethod.
  apply bind_invariant; [exact Hall | intros s' Hs'; exact Hs' |].
  intros existing s' Hs'.
  apply bind_invariant; [exact Hs' | |].
  - intros s'' Hs''. destruct existing; apply setMethod_executors; eauto.
  - intros _ s'' Hs''.
    apply bind_invariant; [exact Hs'' | |].
    + intros s3 Hs3. apply setMethod_executors; eauto.
    + intros _ s3 Hs3. apply setMethod_executors; eauto.
Qed.

Lemma getMethods_executors abi methods :
  getMethods abi = Return methods -> allExecutors methods.
Proof.
  unfold Contract.getMethods.
  match goal with
  | |- context [forEach ?f ?l ?s] =>
      pose proof (forEach_invariant allExecutors f l s) as Hinv;
      destruct (forEach f l s) as [[[]|e] methods']
  end; [|discriminate].
  intros [= <-]. apply Hinv.
  - split; [apply map_Forall_empty | discriminate].
  - intros a s'. apply addMethod_executors.
Qed.

Lemma executorFactory_no_address definition nextOverload this args :
  address this = None ->
  executorFactory definition nextOverload this args
    = Throw (JsError "No contract address.").
Proof. intros Hnone. unfold executorFactory. rewrite Hnone. reflexivity. Qed.

Lemma getLogOptions_no_address this eventName options :
  address this = None ->
  getLogOptions encodeParameter this eventName options
    = Throw (JsError addressNotSet).
Proof. intros Hnone. unfold getLogOptions. rewrite Hnone. reflexivity. Qed.

(** C8.  On a contract without an address: every executor, and so every
    method that [getMethods] registers, throws ['No contract address.']
    whatever the definition, the overload and the arguments are (the
    count of the arguments is not looked at); [getPastEvents], [on] and
    [once] throw and hand the provider back untouched, that is, before
    any request has gone to it; their error is the one of
    [getLogOptions], [addressNotSet]. *)
Theorem no_address_throws_first this :
  address this = None ->
  (forall definition nextOverload args,
      executorFactory definition nextOverload this args
        = Throw (JsError "No contract address."))
  /\ (forall methods key f args,
         getMethods (jsonInterface this) = Return methods ->
         properties methods !! key = Some f \/ prototype methods = Some f ->
         f this args = Throw (JsError "No contract address."))
  /\ (forall eventName options (eth : P),
         getPastEvents encodeParameter decodeAnyEvent getPastLogsPayload
           this eventName options eth
         = (Throw (JsError addressNotSet), eth))
  /\ (forall eventName options callback (eth : P),
         on encodeParameter decodeAnyEvent inputLogFormatter
           getPastLogsPayload newSubscription subscribe emitData emitError
           this eventName options callback eth
         = (Throw (JsError addressNotSet), eth))
  /\ (forall eventName options callback (eth : P),
         once encodeParameter decodeAnyEvent inputLogFormatter
           getPastLogsPayload newSubscription subscribe emitData emitError
           this eventName options callback eth
         = (Throw (JsError addressNotSet), eth)).
Proof.
  intros Hnone. repeat apply conj.
  - intros. apply executorFactory_no_address, Hnone.
  - intros methods key f args Hmethods Hf.
    destruct (getMethods_executors _ _ Hmethods) as [Hown Hproto].
    destruct Hf as [Hkey | Hf].
    + destruct (Hown key f Hkey) as (d & n & ->).
      apply executorFactory_no_address, Hnone.
    + destruct (Hproto f Hf) as (d & n & ->).
      apply executorFactory_no_address, Hnone.
  - intros. unfold getPastEvents, bind, lift.
    rewrite getLogOptions_no_address by exact Hnone. reflexivity.
  - intros. unfold on, subscribeTo, bind, lift.
    rewrite getLogOptions_no_address by exact Hnone. reflexivity.
  - intros. unfold once, subscribeTo, bind, lift.
    rewrite getLogOptions_no_address by exact Hnone. reflexivity.
Qed.

(** *** Argument counts and overloads *)

(** While the prototype is [Object.prototype], a store under a key other
    than [__proto__] makes or replaces an own property. *)
Lemma setMethod_plain (key : string) (f : @TxFactory Address Wallet) methods :
  prototype methods = None ->
  key <> "__proto__" ->
  setMethod key f methods
  = (Return tt,
     {| properties := <[key := f]> (properties methods);
        prototype := None |}).
Proof.
  intros Hproto Hkey. unfold setMethod.
  apply String.eqb_neq in Hkey. rewrite Hkey, Hproto.
  destruct (properties methods !! key); reflexivity.
Qed.

(** One round of the loop of [getMethods], for a function that is not
    stored under [__proto__]. *)
Lemma addMethod_plain method methods :
  prototype methods = None ->
  ~ In "__proto__" (storedKeys method) ->
  addMethod method methods
  = (Return tt,
     {| properties :=
          <[abiMethodToString method := executorFactory (signed method) None]>
            (<[encodeFunctionSignature (abiMethodToString method) :=
                 executorFactory (signed method) None]>
               (<[propertyKey (name method) :=
                    executorFactory (signed method)
                      match properties methods !! propertyKey (name method) with
                      | Some previous => Some previous
                      | None =>
                          if inherited (propertyKey (name method))
                          then Some (callInherited (propertyKey (name method)))
                          else None
                      end]>
                  (properties methods)));
        prototype := None |}).
Proof.
  intros Hproto Hkeys. unfold Contract.storedKeys in Hkeys. cbn [In] in Hkeys.
  assert (Hkey : propertyKey (name method) <> "__proto__")
    by (intros Heq; apply Hkeys; left; exact Heq).
  assert (Hsig : encodeFunctionSignature (abiMethodToString method)
                 <> "__proto__")
    by (intros Heq; apply Hkeys; right; left; exact Heq).
  assert (Hfunc : abiMethodToString method <> "__proto__")
    by (intros Heq; apply Hkeys; right; right; left; exact Heq).
  unfold Contract.addMethod, bind, getMethod. rewrite Hproto.
  destruct (properties methods !! propertyKey (name method)) as [previous|];
    [|destruct (inherited (propertyKey (name method)))];
    rewrite (setMethod_plain _ _ methods Hproto Hkey);
    rewrite setMethod_plain by (try reflexivity; assumption);
    rewrite setMethod_plain by (try reflexivity; assumption);
    reflexivity.
Qed.

Lemma resign_function d :
  type d = "function" -> resign d = signed d.
Proof. intros Htype. unfold Contract.resign. rewrite Htype. reflexivity. Qed.

Lemma filter_filter_andb {A} (f g : A -> bool) (l : list A) :
  List.filter g (List.filter f l) = List.filter (fun a => f a && g a) l.
Proof.
  induction l as [|a l IH]; [reflexivity|].
  cbn [List.filter]. destruct (f a); cbn [andb List.filter];
    [destruct (g a)|]; congruence.
Qed.

(** The loop of [getMethods] over functions none of which is stored under
    [__proto__]: it returns, the prototype is untouched, a key that no
    function is stored under holds what it held, and a name holds the chain
    of the executors of the functions of that name. *)
Lemma forEach_addMethod_plain fs methods :
  prototype methods = None ->
  (forall m, In m fs -> ~ In "__proto__" (storedKeys m)) ->
  exists table,
    forEach addMethod fs methods
    = (Return tt, {| properties := table; prototype := None |})
    /\ (forall k, (forall m, In m fs -> ~ In k (storedKeys m)) ->
                  table !! k = properties methods !! k)
    /\ (forall n,
          inherited n = false ->
          (forall m, In m fs ->
                     n <> abiMethodToString m
                     /\ n <> encodeFunctionSignature (abiMethodToString m)) ->
          table !! n
          = cascade (properties methods !! n)
              (map signed
                 (List.filter
                    (fun d => String.eqb (propertyKey (name d)) n) fs))).
Proof.
  revert methods.
  induction fs as [|m fs IH]; intros methods Hproto Hkeys.
  - exists (properties methods). repeat apply conj.
    + destruct methods as [own proto]. cbn in *. subst proto. reflexivity.
    + reflexivity.
    + reflexivity.
  - cbn [forEach]. unfold bind at 1.
    rewrite (addMethod_plain m methods Hproto)
      by (apply Hkeys; left; reflexivity).
    match goal with
    | |- context [forEach _ fs ?s] =>
        destruct (IH s eq_refl) as (table & Hrun & Hother & Hname)
    end.
    { intros m' Hin. apply Hkeys. right. exact Hin. }
    exists table. repeat apply conj.
    + exact Hrun.
    + intros k Hk.
      rewrite Hother by (intros m' Hin; apply Hk; right; exact Hin).
      specialize (Hk m (or_introl eq_refl)).
      unfold Contract.storedKeys in Hk. cbn [In] in Hk.
      cbn [properties].
      rewrite lookup_insert_ne
        by (intros Heq; apply Hk; right; right; left; exact Heq).
      rewrite lookup_insert_ne
        by (intros Heq; apply Hk; right; left; exact Heq).
      rewrite lookup_insert_ne
        by (intros Heq; apply Hk; left; exact Heq).
      reflexivity.
    + intros n Hinh Hn.
      rewrite (Hname n Hinh) by (intros m' Hin; apply Hn; right; exact Hin).
      destruct (Hn m (or_introl eq_refl)) as [Hfunc Hsig].
      cbn [properties List.filter].
      rewrite lookup_insert_ne by (intros Heq; apply Hfunc; symmetry; exact Heq).
      rewrite lookup_insert_ne by (intros Heq; apply Hsig; symmetry; exact Heq).
      destruct (String.eqb (propertyKey (name m)) n) eqn:Hkey.
      * apply String.eqb_eq in Hkey. rewrite Hkey, lookup_insert_eq.
        cbn [map]. unfold cascade at 2. cbn [fold_left].
        rewrite Hinh. destruct (properties methods !! n); reflexivity.
      * apply String.eqb_neq in Hkey.
        rewrite lookup_insert_ne by exact Hkey. reflexivity.
Qed.

(** What an executor does with the count of its arguments, on a contract
    whose address is set. *)
Lemma executorFactory_branches this (addr : Address) definition
    (ins : list AbiInput) nextOverload args :
  address this = Some addr ->
  inputs definition = Some ins ->
  (length args <> length ins ->
   executorFactory definition nextOverload this args
   = match nextOverload with
     | Some next => next this args
     | None =>
         Throw (InvalidNumberOfParams (length args) (length ins)
                  (name definition))
     end)
  /\ (length args = length ins ->
      executorFactory definition nextOverload this args
      = Return {| tx_definition := definition;
                  tx_address := addr;
                  tx_args := args;
                  tx_options := options this;
                  tx_wallet := wallet this |}).
Proof.
  intros Haddr Hins. unfold executorFactory. rewrite Haddr, Hins.
  cbn [andb orb]. split; intros Hlen.
  - apply Nat.eqb_neq in Hlen. rewrite Hlen. reflexivity.
  - apply Nat.eqb_eq in Hlen. rewrite Hlen. reflexivity.
Qed.

(** C9, as amended.  An executor on a contract without an address throws
    ['No contract address.'] whatever the arguments.  On a contract whose
    address is set, an executor of a definition with declared inputs, called
    with an argument count other than the number of inputs, gives what its
    next overload gives on the same arguments when it was created with one,
    and otherwise throws [InvalidNumberOfParams]; with a matching count it
    returns the [Tx] of that definition, the contract's address and exactly
    those arguments.  And the method that [getMethods] registers under a
    name is the executor of the last function of that name, with the chain
    of the executors of the earlier functions of that name, in the order of
    the ABI, as its next overload, and none when it is the only one; so
    that is what the method hands a call with another argument count to.
    This last part is for an ABI no function of which is stored under
    [__proto__], and a name that is no member of [Object.prototype] and
    neither the full name nor the signature of a function. *)
Theorem executorFactory_counts this :
  (address this = None ->
   forall definition nextOverload args,
     executorFactory definition nextOverload this args
     = Throw (JsError "No contract address."))
  /\ (forall (addr : Address) definition (ins : list AbiInput) nextOverload
             args,
        address this = Some addr ->
        inputs definition = Some ins ->
        (length args <> length ins ->
         executorFactory definition nextOverload this args
         = match nextOverload with
           | Some next => next this args
           | None =>
               Throw (InvalidNumberOfParams (length args) (length ins)
                        (name definition))
           end)
        /\ (length args = length ins ->
            executorFactory definition nextOverload this args
            = Return {| tx_definition := definition;
                        tx_address := addr;
                        tx_args := args;
                        tx_options := options this;
                        tx_wallet := wallet this |}))
  /\ (forall abi (n : string) ds d,
        (forall m, In m abi -> type m = "function" ->
                   ~ In "__proto__" (storedKeys m)) ->
        inherited n = false ->
        (forall m, In m abi -> type m = "function" ->
                   n <> abiMethodToString m
                   /\ n <> encodeFunctionSignature (abiMethodToString m)) ->
        List.filter
          (fun m => String.eqb (type m) "function"
                    && String.eqb (propertyKey (name m)) n)
          abi
        = ds ++ [d] ->
        exists methods f,
          getMethods abi = Return methods
          /\ properties methods !! n = Some f
          /\ f = executorFactory (resign d) (cascade None (map resign ds))
          /\ (address this = None ->
              forall args, f this args = Throw (JsError "No contract address."))
          /\ (forall (addr : Address) (ins : list AbiInput) args,
                address this = Some addr ->
                inputs d = Some ins ->
                (length args <> length ins ->
                 f this args
                 = match cascade None (map resign ds) with
                   | Some next => next this args
                   | None =>
                       Throw (InvalidNumberOfParams (length args)
                                (length ins) (name d))
                   end)
                /\ (length args = length ins ->
                    f this args
                    = Return {| tx_definition := resign d;
                                tx_address := addr;
                                tx_args := args;
                                tx_options := options this;
                                tx_wallet := wallet this |}))).
Proof.
  repeat apply conj.
  - intros Hnone definition nextOverload args.
    apply executorFactory_no_address, Hnone.
  - intros addr definition ins nextOverload args.
    apply executorFactory_branches.
  - intros abi n ds d Hproto Hinh Hkeys Hnamed.
    unfold Contract.getMethods.
    destruct (forEach_addMethod_plain
                (List.filter (fun m => String.eqb (type m) "function") abi)
                noMethods eq_refl)
      as (table & Hrun & _ & Hname).
    { intros m Hin. apply filter_In in Hin as [Hin Htype].
      apply Hproto; [exact Hin | apply String.eqb_eq, Htype]. }
    rewrite Hrun. do 2 eexists.
    split; [reflexivity|]. cbn [properties].
    assert (Hfunction : type d = "function").
    { assert (Hd : In d (ds ++ [d]))
        by (apply in_or_app; right; left; reflexivity).
      rewrite <- Hnamed in Hd. apply filter_In in Hd as [_ Hd].
      apply andb_prop in Hd as [Htype _]. apply String.eqb_eq, Htype. }
    split; [|split; [reflexivity|split]].
    + rewrite (Hname n Hinh).
      * unfold noMethods. cbn [properties].
        rewrite filter_filter_andb, lookup_empty.
        assert (Hsigned :
                  map signed
                    (List.filter
                       (fun m => String.eqb (type m) "function"
                                 && String.eqb (propertyKey (name m)) n) abi)
                  = map resign (ds ++ [d])).
        { rewrite <- Hnamed. apply map_ext_in. intros m Hin.
          apply filter_In in Hin as [_ Hm].
          apply andb_prop in Hm as [Htype _].
          symmetry. apply resign_function, String.eqb_eq, Htype. }
        rewrite Hsigned, map_app. unfold cascade.
        rewrite fold_left_app. reflexivity.
      * intros m Hin. apply filter_In in Hin as [Hin Htype].
        apply Hkeys; [exact Hin | apply String.eqb_eq, Htype].
    + intros Hnone args. apply executorFactory_no_address, Hnone.
    + intros addr ins args Haddr Hins.
      assert (Hsame : inputs (resign d) = Some ins /\ name (resign d) = name d).
      { rewrite (resign_function d Hfunction). split; [exact Hins|reflexivity]. }
      destruct Hsame as [Hins' Hname'].
      destruct (executorFactory_branches this addr (resign d) ins
                  (cascade None (map resign ds)) args Haddr Hins')
        as [Hother Hmatch].
      rewrite Hname' in Hother. split; assumption.
Qed.

(** Once a deployment has given the contract its address
    ([contractDeployFormatter]), an executor called with the declared
    number of arguments returns its [Tx]. *)
Lemma deployed_contract_executes this
    (receipt : @TransactionReceipt Address Log EventLog ReceiptFields)
    (addr : Address) definition (ins : list AbiInput) nextOverload args :
  contractAddress receipt = Some addr ->
  inputs definition = Some ins ->
  length args = length ins ->
  executorFactory definition nextOverload
    (snd (contractDeployFormatter receipt this)) args
  = Return {| tx_definition := definition; tx_address := addr;
              tx_args := args; tx_options := options this;
              tx_wallet := wallet this |}.
Proof.
  intros Haddr Hins Hlen. unfold executorFactory, contractDeployFormatter.
  cbn [snd address options wallet]. rewrite Haddr, Hins.
  apply Nat.eqb_eq in Hlen. rewrite Hlen. reflexivity.
Qed.

(** A definition without declared inputs takes any arguments. *)
Lemma executorFactory_no_inputs this (addr : Address) definition
    nextOverload args :
  address this = Some addr ->
  inputs definition = None ->
  executorFactory definition nextOverload this args
    = Return {| tx_definition := definition; tx_address := addr;
                tx_args := args; tx_options := options this;
                tx_wallet := wallet this |}.
Proof.
  intros Haddr Hins. unfold executorFactory. rewrite Haddr, Hins.
  reflexivity.
Qed.

(** *** The receipt formatter *)

Implicit Types
  (receipt : @TransactionReceipt Address Log EventLog ReceiptFields)
  (table : gmap string (list EventLog)) (decoded : list EventLog).

Local Abbreviation named := (Contract.named event).
Local Abbreviation addEvent :=
  (@Contract.addEvent Address Log EventLog ReceiptFields event).
Local Abbreviation receiptFormatter :=
  (@Contract.receiptFormatter Address Wallet Log EventLog ReceiptFields
     decodeAnyEvent event).

(** A receipt whose [logs] is not an array comes back as it is. *)
Lemma receiptFormatter_without_logs this receipt :
  logs receipt = None ->
  receiptFormatter this receipt = (Return tt, receipt).
Proof.
  intros Hlogs. unfold Contract.receiptFormatter. rewrite Hlogs. reflexivity.
Qed.

(** An event named after a member of [Object.prototype] stops the loop. *)
Lemma addEvent_inherited (ev : EventLog) (n : string) receipt table :
  named ev = Some n ->
  inherited n = true ->
  events receipt = Some table ->
  table !! n = None ->
  addEvent ev receipt = (Throw JsTypeError, receipt).
Proof.
  intros Hname Hinh Hevents Hfree. unfold Contract.addEvent.
  rewrite Hname, Hevents. unfold getProperty. rewrite Hfree, Hinh.
  reflexivity.
Qed.

Lemma inherited_proto (n : string) :
  inherited n = false -> String.eqb n "__proto__" = false.
Proof.
  intros Hinh. destruct (String.eqb n "__proto__") eqn:Heq; [|reflexivity].
  apply String.eqb_eq in Heq. subst n. discriminate.
Qed.

(** One step of the loop, for an event whose name no plain object
    inherits: the event goes to the end of the list under its name, or of
    the nameless ones. *)
Lemma addEvent_step (ev : EventLog) logs0 table unnamed
    (address0 : option Address) fields0 :
  (forall n, named ev = Some n -> inherited n = false) ->
  addEvent ev {| logs := logs0;
                 events := Some table;
                 unnamedEvents := Some unnamed;
                 contractAddress := address0;
                 fields := fields0 |}
  = (Return tt,
     match named ev with
     | Some n =>
         {| logs := logs0;
            events := Some (<[n := default [] (table !! n) ++ [ev]]> table);
            unnamedEvents := Some unnamed;
            contractAddress := address0;
            fields := fields0 |}
     | None =>
         {| logs := logs0;
            events := Some table;
            unnamedEvents := Some (unnamed ++ [ev]);
            contractAddress := address0;
            fields := fields0 |}
     end).
Proof.
  intros Hok. unfold Contract.addEvent.
  cbn [events unnamedEvents logs contractAddress fields].
  destruct (named ev) as [n|]; [|reflexivity].
  specialize (Hok n eq_refl). unfold getProperty. rewrite Hok.
  destruct (table !! n); reflexivity.
Qed.

(** The loop over the decoded events. *)
Lemma forEach_addEvent decoded logs0 table unnamed
    (address0 : option Address) fields0 :
  (forall ev n, In ev decoded -> named ev = Some n -> inherited n = false) ->
  exists table',
    forEach addEvent decoded
      {| logs := logs0;
         events := Some table;
         unnamedEvents := Some unnamed;
         contractAddress := address0;
         fields := fields0 |}
    = (Return tt,
       {| logs := logs0;
          events := Some table';
          unnamedEvents :=
            Some (unnamed
                  ++ List.filter (fun ev => negb (is_Some_b (named ev)))
                       decoded);
          contractAddress := address0;
          fields := fields0 |})
    /\ forall n,
         table' !! n
         = match table !! n,
                 List.filter (fun ev => optionEqb (named ev) n) decoded with
           | None, [] => None
           | found, evs => Some (default [] found ++ evs)
           end.
Proof.
  revert table unnamed.
  induction decoded as [|ev decoded IH]; intros table unnamed Hok.
  - exists table. cbn. rewrite app_nil_r. split; [reflexivity|].
    intros n. destruct (table !! n); cbn; [rewrite app_nil_r|]; reflexivity.
  - cbn [forEach]. unfold bind at 1.
    rewrite addEvent_step by (intros n; apply Hok; left; reflexivity).
    assert (Hrest : forall ev' n, In ev' decoded -> named ev' = Some n ->
                                  inherited n = false)
      by (intros ev' n Hin; apply Hok; right; exact Hin).
    destruct (named ev) as [m|] eqn:Hname.
    + destruct (IH (<[m := default [] (table !! m) ++ [ev]]> table)
                  unnamed Hrest) as (table' & Hrun & Hlookup).
      exists table'. split.
      * rewrite Hrun. cbn [List.filter]. rewrite Hname. reflexivity.
      * intros n. rewrite Hlookup. cbn [List.filter]. rewrite Hname.
        cbn [optionEqb]. rewrite lookup_insert.
        destruct (decide (m = n)) as [->|Hne].
        -- rewrite String.eqb_refl.
           destruct (table !! n); cbn;
             destruct (List.filter _ decoded); cbn;
             rewrite <- ?app_assoc; reflexivity.
        -- apply String.eqb_neq in Hne. rewrite Hne. reflexivity.
    + destruct (IH table (unnamed ++ [ev]) Hrest)
        as (table' & Hrun & Hlookup).
      exists table'. split.
      * rewrite Hrun. cbn [List.filter]. rewrite Hname. cbn.
        rewrite <- app_assoc. reflexivity.
      * intros n. rewrite Hlookup. cbn [List.filter]. rewrite Hname.
        reflexivity.
Qed.

(** X14.  When no decoded event is named after a member of
    [Object.prototype], the formatter groups as intended: under each name
    the events of that name in log order, the nameless ones apart, and
    [logs] removed. *)
Lemma receiptFormatter_groups this receipt (ls : list Log) :
  logs receipt = Some ls ->
  (forall l n, In l ls ->
               named (decodeAnyEvent (jsonInterface this) l) = Some n ->
               inherited n = false) ->
  exists table,
    receiptFormatter this receipt
    = (Return tt,
       {| logs := None;
          events := Some table;
          unnamedEvents :=
            Some (List.filter (fun ev => negb (is_Some_b (named ev)))
                    (map (decodeAnyEvent (jsonInterface this)) ls));
          contractAddress := contractAddress receipt;
          fields := fields receipt |})
    /\ forall n,
         table !! n
         = match List.filter (fun ev => optionEqb (named ev) n)
                   (map (decodeAnyEvent (jsonInterface this)) ls) with
           | [] => None
           | evs => Some evs
           end.
Proof.
  intros Hlogs Hok. unfold Contract.receiptFormatter. rewrite Hlogs.
  destruct (forEach_addEvent (map (decodeAnyEvent (jsonInterface this)) ls)
              (Some ls) ∅ [] (contractAddress receipt) (fields receipt))
    as (table & Hrun & Hlookup).
  { intros ev n Hin. apply in_map_iff in Hin as (l & <- & Hl).
    apply Hok, Hl. }
  exists table. rewrite Hrun. split; [reflexivity|].
  intros n. rewrite Hlookup, lookup_empty. reflexivity.
Qed.
End ContractFacts.

(** C8 at a contract built without an address, over a provider that
    records its requests: none is recorded. *)
Lemma no_address_throws_first_witness :
  Contract.address (Fixture.contractAt None) = None
  /\ Contract.executorFactory Fixture.transferTo None
       (Fixture.contractAt None) [VStr "0xb0b"; VNum 1; VNum 2]
     = Throw (JsError "No contract address.")
  /\ Contract.getPastEvents Fixture.encodeParameter Fixture.decodeAnyEvent
       Fixture.getPastLogsPayload (Fixture.contractAt None) (Some "Transfer")
       Fixture.noFilter ([] : Fixture.Recorder)
     = (Throw (JsError Contract.addressNotSet), [])
  /\ Contract.on Fixture.encodeParameter Fixture.decodeAnyEvent
       Fixture.inputLogFormatter Fixture.getPastLogsPayload
       Fixture.newSubscription Fixture.subscribe Fixture.emitData
       Fixture.emitError (Fixture.contractAt None) (Some "Transfer")
       Fixture.noFilter None ([] : Fixture.Recorder)
     = (Throw (JsError Contract.addressNotSet), []).
Proof.
  destruct (no_address_throws_first Fixture.abiMethodToString
              Fixture.encodeSignature Fixture.encodeParameter
              Fixture.decodeAnyEvent Fixture.inputLogFormatter
              Fixture.getPastLogsPayload Fixture.callInherited
              Fixture.callFunctionMember
              Fixture.newSubscription Fixture.subscribe Fixture.emitData
              Fixture.emitError (Fixture.contractAt None) eq_refl)
    as (Hexecutor & _ & Hpast & Hon & _).
  split; [reflexivity|]. split; [apply Hexecutor|].
  split; [apply Hpast | apply Hon].
Defined.

(** With an address, the same calls go through to the provider. *)
Example getPastEvents_with_address_sends :
  Contract.getPastEvents Fixture.encodeParameter Fixture.decodeAnyEvent
    Fixture.getPastLogsPayload (Fixture.contractAt (Some 7%N))
    (Some "Transfer") Fixture.noFilter ([] : Fixture.Recorder)
  = (Return [],
     [("eth_getLogs", Some [VObj [("address", VNum 7)]])]).
Proof. reflexivity. Qed.

(** C9: the number of arguments matches the declared inputs, yet without an
    address the executor throws instead of returning a [Tx]. *)
Lemma executor_without_address_throws :
  Contract.inputs Fixture.ping = Some []
  /\ length ([] : list JsVal) = length ([] : list Contract.AbiInput)
  /\ Contract.executorFactory Fixture.ping None (Fixture.contractAt None) []
     = Throw (JsError "No contract address.").
Proof. repeat split. Qed.

(** C9 at the two overloads of [transfer]: what [getMethods] registers
    under the name is the executor of the second with the executor of the
    first as its next overload.  On a contract at address 7, with one
    argument it hands over to the first, which returns its [Tx]; with three
    the first throws; with two it returns its own [Tx].  Without an address
    it throws. *)
Lemma executorFactory_counts_witness :
  exists methods f,
    Contract.getMethods Fixture.abiMethodToString Fixture.encodeSignature
      Fixture.callInherited Fixture.callFunctionMember Fixture.abi
    = Return methods
    /\ Contract.properties methods !! "transfer" = Some f
    /\ f = Contract.executorFactory Fixture.transferAmount
             (Some (Contract.executorFactory Fixture.transferTo None))
    /\ f (Fixture.contractAt (Some 7%N)) [VStr "0xb0b"]
       = Return {| Contract.tx_definition := Fixture.transferTo;
                   Contract.tx_address := 7%N;
                   Contract.tx_args := [VStr "0xb0b"];
                   Contract.tx_options := Fixture.noOptions;
                   Contract.tx_wallet := None |}
    /\ f (Fixture.contractAt (Some 7%N)) [VStr "0xb0b"; VNum 1; VNum 2]
       = Throw (InvalidNumberOfParams 3 1 (Some "transfer"))
    /\ f (Fixture.contractAt (Some 7%N)) [VStr "0xb0b"; VNum 1]
       = Return {| Contract.tx_definition := Fixture.transferAmount;
                   Contract.tx_address := 7%N;
                   Contract.tx_args := [VStr "0xb0b"; VNum 1];
                   Contract.tx_options := Fixture.noOptions;
                   Contract.tx_wallet := None |}
    /\ f (Fixture.contractAt None) [VStr "0xb0b"; VNum 1]
       = Throw (JsError "No contract address.").
Proof.
  destruct (executorFactory_counts Fixture.abiMethodToString
              Fixture.encodeSignature Fixture.callInherited
              Fixture.callFunctionMember (Fixture.contractAt (Some 7%N)))
    as (_ & Hcounts & Hregistered).
  destruct (executorFactory_counts Fixture.abiMethodToString
              Fixture.encodeSignature Fixture.callInherited
              Fixture.callFunctionMember (Fixture.contractAt None))
    as (Hnone & _ & _).
  destruct (Hregistered Fixture.abi "transfer"
              [Fixture.function "transfer" ["address"]]
              (Fixture.function "transfer" ["address"; "uint256"]))
    as (methods & f & Hrun & Hf & Heq & _ & Hcall).
  - intros m [<- | [<- | [<- | [<- | []]]]] _; cbn;
      intros [Heq | [Heq | [Heq | []]]]; discriminate.
  - reflexivity.
  - intros m [<- | [<- | [<- | [<- | []]]]] _; split; discriminate.
  - reflexivity.
  - exists methods, f.
    split; [exact Hrun|]. split; [exact Hf|]. split; [exact Heq|].
    repeat apply conj.
    + rewrite (proj1 (Hcall 7%N _ [VStr "0xb0b"] eq_refl eq_refl))
        by (cbn; lia).
      apply (proj2 (Hcounts 7%N Fixture.transferTo _ None [VStr "0xb0b"]
                      eq_refl eq_refl)).
      reflexivity.
    + rewrite (proj1 (Hcall 7%N _ [VStr "0xb0b"; VNum 1; VNum 2]
                        eq_refl eq_refl))
        by (cbn; lia).
      apply (proj1 (Hcounts 7%N Fixture.transferTo _ None
                      [VStr "0xb0b"; VNum 1; VNum 2] eq_refl eq_refl)).
      cbn. lia.
    + apply (proj2 (Hcall 7%N _ [VStr "0xb0b"; VNum 1] eq_refl eq_refl)).
      reflexivity.
    + rewrite Heq. apply Hnone. reflexivity.
Defined.

(** The two overloads of [transfer] as the constructor registers them:
    under the name, the later definition is tried first and hands over to
    the earlier one; under a signature there is no overload to hand over
    to. *)
Example transfer_overloads :
  exists methods,
    Contract.newMethods Fixture.abiMethodToString Fixture.encodeSignature
      Fixture.encodeSignature Fixture.callInherited
      Fixture.callFunctionMember Fixture.abi
    = Return methods
    /\ Contract.prototype methods = None
    /\ let this := Fixture.contractAt (Some 7%N) in
       let call key args :=
         (fun f => f this args) <$> (Contract.properties methods !! key) in
       let tx definition args :=
         Return {| Contract.tx_definition := definition;
                   Contract.tx_address := 7%N;
                   Contract.tx_args := args;
                   Contract.tx_options := Fixture.noOptions;
                   Contract.tx_wallet := None |} in
       call "transfer" [VStr "0xb0b"]
       = Some (tx Fixture.transferTo [VStr "0xb0b"])
       /\ call "transfer" [VStr "0xb0b"; VNum 1]
          = Some (tx Fixture.transferAmount [VStr "0xb0b"; VNum 1])
       /\ call "transfer" []
          = Some (Throw (InvalidNumberOfParams 0 1 (Some "transfer")))
       /\ call "0xtransfer(address,uint256)" [VStr "0xb0b"]
          = Some (Throw (InvalidNumberOfParams 1 2 (Some "transfer"))).
Proof. eexists. repeat split. Qed.

(** A function named [__proto__] ahead of a function named [call]: the
    store under [__proto__] makes the executor the prototype of [methods],
    so that [methods['call']] finds [Function.prototype.call] and the
    executor of [call] gets that as its next overload. *)
Example getMethods_after_proto :
  exists methods,
    Contract.getMethods Fixture.abiMethodToString Fixture.encodeSignature
      Fixture.callInherited Fixture.callFunctionMember
      [Fixture.function "__proto__" []; Fixture.function "call" ["uint256"]]
    = Return methods
    /\ Contract.properties methods !! "__proto__" = None
    /\ Contract.prototype methods
       = Some (Contract.executorFactory
                 (Contract.setSignature "0x__proto__()"
                    (Fixture.function "__proto__" []))
                 (Some (Fixture.callInherited "__proto__")))
    /\ Contract.properties methods !! "call"
       = Some (Contract.executorFactory
                 (Contract.setSignature "0xcall(uint256)"
                    (Fixture.function "call" ["uint256"]))
                 (Some (Fixture.callFunctionMember "call"))).
Proof. eexists. repeat split. Qed.

(** A function named after a member of [Object.prototype]: [methods] is a
    plain object, so [methods['toString']] is truthy before anything is
    stored, and the first executor of that name gets the inherited member as
    its next overload. *)
Example getMethods_inherited_name :
  exists methods,
    Contract.getMethods Fixture.abiMethodToString Fixture.encodeSignature
      Fixture.callInherited Fixture.callFunctionMember
      [Fixture.function "toString" []]
    = Return methods
    /\ Contract.properties methods !! "toString"
       = Some (Contract.executorFactory
                 (Contract.setSignature "0xtoString()"
                    (Fixture.function "toString" []))
                 (Some (Fixture.callInherited "toString"))).
Proof. eexists. repeat split. Qed.

(** After a function named [__proto__], a function named [length] cannot
    be stored: [methods] inherits the read-only [length] of the executor,
    and [getMethods], and with it the constructor, throws a [TypeError]. *)
Example getMethods_after_proto_throws :
  Contract.getMethods Fixture.abiMethodToString Fixture.encodeSignature
    Fixture.callInherited Fixture.callFunctionMember
    [Fixture.function "__proto__" []; Fixture.function "length" []]
  = Throw JsTypeError.
Proof. reflexivity. Qed.

(** C10: a receipt whose only log decodes to the event [hasOwnProperty] of
    the contract's ABI.  [receipt.events] is a fresh [{}], so
    [receipt.events['hasOwnProperty']] is the inherited function, and
    spreading it throws: the formatter fails instead of grouping. *)
Lemma receiptFormatter_inherited_name_throws :
  map (Fixture.decodeAnyEvent
         (Contract.jsonInterface (Fixture.contractAt (Some 7%N))))
    [ Fixture.logOf "0xhasOwnProperty()" "a" ]
  = [ {| Fixture.ev_event := Some "hasOwnProperty"; Fixture.ev_payload := "a" |} ]
  /\ fst (Contract.receiptFormatter Fixture.decodeAnyEvent Fixture.ev_event
            (Fixture.contractAt (Some 7%N)) Fixture.oddReceipt)
     = Throw JsTypeError.
Proof. split; reflexivity. Qed.

(** Three logs, the second of no event of the ABI: two [Transfer] events in
    log order, one nameless event, and no [logs] afterwards. *)
Example receiptFormatter_transfers :
  exists table,
    Contract.receiptFormatter Fixture.decodeAnyEvent Fixture.ev_event
      (Fixture.contractAt (Some 7%N))
      (Fixture.receiptWith
         [ Fixture.logOf "0xTransfer()" "a"; Fixture.logOf "0x1234" "b";
           Fixture.logOf "0xTransfer()" "c" ])
    = (Return tt,
       {| Contract.logs := None;
          Contract.events := Some table;
          Contract.unnamedEvents :=
            Some [ {| Fixture.ev_event := None; Fixture.ev_payload := "b" |} ];
          Contract.contractAddress := None;
          Contract.fields := tt |})
    /\ table !! "Transfer"
       = Some [ {| Fixture.ev_event := Some "Transfer"; Fixture.ev_payload := "a" |};
                {| Fixture.ev_event := Some "Transfer"; Fixture.ev_payload := "c" |} ]
    /\ table !! "Approval" = None.
Proof. eexists. repeat split. Qed.

(** * Further properties *)

(** ** The dispatcher *)

Section DispatcherMore.
Import Imports.
Context (H : Handlers).
Implicit Types (this : Provider.EvmProvider H) (method : string)
  (p : JsVal) (rest : list JsVal).

(** [send] reads [params[0]] and nothing after it: the block parameter of
    [eth_call] and [eth_getCode], and anything else that follows, has no
    influence on the result or on the provider. *)
Theorem send_reads_first_param_only method p rest rest' this :
  Provider.send H method (Some (p :: rest)) this
  = Provider.send H method (Some (p :: rest')) this.
Proof. reflexivity. Qed.

(** X2.  When the formatter of a method refuses the parameter, [send] fails
    with the formatter's error; the handler has not run, and the provider is
    as before. *)
Theorem send_formatter_error p rest (e : Exn) this :
  truthy p = true ->
  (fromRawTransactionRequest H p = Throw e ->
   Provider.send H "eth_sendTransaction" (Some (p :: rest)) this
   = (Throw e, this))
  /\ (fromRawCallRequest H p = Throw e ->
      Provider.send H "eth_call" (Some (p :: rest)) this = (Throw e, this))
  /\ (addressFromString H p = Throw e ->
      Provider.send H "eth_getCode" (Some (p :: rest)) this = (Throw e, this))
  /\ (fromRawLogRequest H p = Throw e ->
      Provider.send H "eth_getLogs" (Some (p :: rest)) this = (Throw e, this)).
Proof.
  intros Htruthy.
  repeat apply conj; intros Hraw; unfold Provider.send;
    cbn [String.eqb Ascii.eqb Bool.eqb index nth];
    rewrite Htruthy; cbn [negb]; unfold bind, lift; rewrite Hraw;
    reflexivity.
Qed.

(** X3.  A request of [Eth] for the gas price, sent to the EVM provider,
    gives the formatter's reading of the hex of 50000, whatever parameters
    the payload carries, and leaves the provider as it was. *)
Theorem eth_send_gasPrice {A : Type} (payload : Eth.RequestPayload A) this :
  Eth.method payload = "eth_gasPrice" ->
  Eth.send payload this
  = (Eth.format payload (VStr (numberToHex 50000)), this).
Proof.
  intros Hmethod. unfold Eth.send, bind, lift. cbn [provider_send].
  rewrite Hmethod. cbn.
  destruct (Eth.format payload _); reflexivity.
Qed.

(** X4.  A request of [Eth] without parameters (absent, or an empty array),
    for any method other than the gas price, fails at the EVM provider with
    the error without message; the payload's formatter is not run and the
    provider is as it was. *)
Theorem eth_send_without_params {A : Type} (payload : Eth.RequestPayload A)
    this :
  Eth.method payload <> "eth_gasPrice" ->
  Eth.params payload = None \/ Eth.params payload = Some [] ->
  Eth.send payload this = (Throw (JsError ""), this).
Proof.
  intros Hmethod Hparams. unfold Eth.send, bind.
  unfold provider_send, Provider.EvmProvider_EthereumProvider, Provider.send.
  apply String.eqb_neq in Hmethod. rewrite Hmethod.
  destruct Hparams as [-> | ->]; reflexivity.
Qed.
End DispatcherMore.

(** A parameter that is no object, at [eth_getLogs]. *)
Lemma send_formatter_error_witness :
  Provider.send Fixture.handlers "eth_getLogs" (Some [VStr "latest"])
    Fixture.provider
  = (Throw (RpcError BadParams), Fixture.provider).
Proof.
  apply (send_formatter_error Fixture.handlers (VStr "latest") []
           (RpcError BadParams) Fixture.provider eq_refl).
  reflexivity.
Defined.

(** The gas price asked through [Eth], over the fixture's EVM provider. *)
Lemma eth_send_gasPrice_witness :
  Eth.send Fixture.gasPricePayload Fixture.provider
  = (Return "0xc350", Fixture.provider).
Proof.
  apply (eth_send_gasPrice Fixture.handlers Fixture.gasPricePayload
           Fixture.provider).
  reflexivity.
Defined.

(** The block number asked through [Eth]: the EVM provider refuses it. *)
Lemma eth_send_without_params_witness :
  Eth.send Fixture.blockNumberPayload Fixture.provider
  = (Throw (JsError ""), Fixture.provider).
Proof.
  apply (eth_send_without_params Fixture.handlers Fixture.blockNumberPayload
           Fixture.provider).
  - discriminate.
  - right. reflexivity.
Defined.

(** ** Eth *)

Section EthMore.
Context {P : Type} `{EthereumProvider P}.
Context {Address Wallet Account Subscription : Type}.
Context (walletGet : Wallet -> Address -> option Account)
        (accountSign : Account -> string -> string)
        (signPayload :
           option Address -> Address -> string -> Eth.RequestPayload string)
        (subscribeForLogs :
           list JsVal -> M (@Eth.Eth P Address Wallet) Subscription)
        (subscribeForSyncing : M P Subscription)
        (subscribeForNewHeads : M P Subscription)
        (subscribeForNewPendingTransactions : M P Subscription).
Implicit Types (this : @Eth.Eth P Address Wallet) (address : Address)
  (data type : string).

Local Abbreviation sign := (Eth.sign walletGet accountSign signPayload).
Local Abbreviation subscribe :=
  (Eth.subscribe subscribeForLogs subscribeForSyncing subscribeForNewHeads
     subscribeForNewPendingTransactions).

(** X5.  [sign] signs in the wallet when the wallet has an account for the
    address: the result is that account's signature and the object, provider
    included, is untouched, so nothing was sent.  The default address plays
    no part: with no account for the address itself the data goes to the
    provider, also when the wallet holds the default one. *)
Theorem sign_local_or_remote address data this :
  (forall (w : Wallet) (account : Account),
      Eth.wallet this = Some w ->
      walletGet w address = Some account ->
      sign address data this = (Return (accountSign account data), this))
  /\ ((Eth.wallet this = None
       \/ exists w, Eth.wallet this = Some w /\ walletGet w address = None) ->
      sign address data this
      = Eth.withProvider
          (Eth.send (signPayload (Eth.defaultFromAddress this) address data))
          this).
Proof.
  unfold Eth.sign, Eth.getAccount. split.
  - intros w account Hw Haccount. rewrite Hw, Haccount. reflexivity.
  - intros [Hnone | (w & Hw & Haccount)].
    + rewrite Hnone. reflexivity.
    + rewrite Hw, Haccount. reflexivity.
Qed.

(** X6.  [subscribe] with a type other than the four it knows throws
    ['Unknown subscription type: ' + type] and leaves the object as it was. *)
Theorem subscribe_unknown_type type (args : list JsVal) this :
  ~ In type ["logs"; "syncing"; "newBlockHeaders"; "pendingTransactions"] ->
  subscribe type args this
  = (Throw (JsError ("Unknown subscription type: " ++ type)), this).
Proof.
  intros Hnot. unfold Eth.subscribe.
  assert (Hneq : forall known,
             In known ["logs"; "syncing"; "newBlockHeaders";
                       "pendingTransactions"] ->
             String.eqb type known = false).
  { intros known Hin. apply String.eqb_neq. intros ->. contradiction. }
  rewrite !Hneq by (cbn; tauto). reflexivity.
Qed.

End EthMore.

(** Account 1 is in the wallet: nothing reaches the recording provider. *)
Lemma sign_local_or_remote_witness :
  Eth.sign Fixture.walletGet Fixture.accountSign Fixture.signPayload
    1%N "hello" Fixture.eth
  = (Return "key-of-1:hello", Fixture.eth).
Proof.
  apply (proj1 (sign_local_or_remote Fixture.walletGet Fixture.accountSign
                  Fixture.signPayload 1%N "hello" Fixture.eth)
           [(1%N, "key-of-1")] "key-of-1" eq_refl eq_refl).
Defined.

(** Account 2 is not: the data goes out as an [eth_sign] request. *)
Example sign_remote :
  snd (Eth.sign Fixture.walletGet Fixture.accountSign Fixture.signPayload
         2%N "hello" Fixture.eth)
  = {| Eth.provider := [("eth_sign", Some [VNum 2; VStr "hello"])];
       Eth.defaultFromAddress := None;
       Eth.wallet := Some [(1%N, "key-of-1")] |}.
Proof. reflexivity. Qed.

(** A subscription type the code does not know. *)
Lemma subscribe_unknown_type_witness :
  Eth.subscribe Fixture.subscribeForLogs (Fixture.subscribed "syncing")
    (Fixture.subscribed "newHeads")
    (Fixture.subscribed "newPendingTransactions") "blocks" [] Fixture.eth
  = (Throw (JsError "Unknown subscription type: blocks"), Fixture.eth).
Proof.
  apply (subscribe_unknown_type Fixture.subscribeForLogs
           (Fixture.subscribed "syncing") (Fixture.subscribed "newHeads")
           (Fixture.subscribed "newPendingTransactions") "blocks" []
           Fixture.eth).
  cbn. intuition discriminate.
Defined.

(** ** Contract: log options *)

Section LogOptionsMore.
Import Contract.
Context {Address Wallet : Type}.
Context (encodeParameter : string -> JsVal -> Completion string).
Implicit Types (this : @Contract.Contract Address Wallet)
  (options : @GetLogOptions Address) (eventName : option string)
  (event json : AbiDefinition).

Local Abbreviation getLogOptions := (Contract.getLogOptions encodeParameter).
Local Abbreviation getEventTopics := (Contract.getEventTopics encodeParameter).

Lemma find_ext_in {A} (f g : A -> bool) (l : list A) :
  (forall x, In x l -> f x = g x) -> List.find f l = List.find g l.
Proof.
  induction l as [|x l IH]; intros Hext; [reflexivity|].
  cbn [List.find]. rewrite (Hext x) by (left; reflexivity).
  destruct (g x); [reflexivity|].
  apply IH. intros y Hy. apply Hext. right. exact Hy.
Qed.

Lemma find_all_false {A} (f : A -> bool) (l : list A) :
  (forall x, In x l -> f x = false) -> List.find f l = None.
Proof.
  induction l as [|x l IH]; intros Hall; [reflexivity|].
  cbn [List.find]. rewrite (Hall x) by (left; reflexivity).
  apply IH. intros y Hy. apply Hall. right. exact Hy.
Qed.

Lemma optionEqb_false (a : option string) (b : string) :
  a <> Some b -> optionEqb a b = false.
Proof.
  destruct a as [a|]; intros Hne; [|reflexivity].
  apply String.eqb_neq. congruence.
Qed.

Lemma remove0x_prefixed (h : string) : remove0x ("0x" ++ h) = h.
Proof. reflexivity. Qed.

Lemma remove0x_clean (h : string) : contains0x h = false -> remove0x h = h.
Proof.
  induction h as [|c h IH]; [reflexivity|].
  cbn [contains0x remove0x].
  destruct c as [[] [] [] [] [] [] [] []];
    try (intros Hclean; f_equal; apply IH; exact Hclean).
  destruct h as [|[[] [] [] [] [] [] [] []] h'];
    solve [ discriminate
          | intros Hclean; f_equal; apply IH; exact Hclean ].
Qed.

(** X7.  Whatever the event name, options that [getLogOptions] returns carry
    the contract's own address, also when the caller's options named another
    one, and the caller's filter and block range as given. *)
Theorem getLogOptions_keeps_options this eventName options
    (o : @GetLogOptions Address) :
  getLogOptions this eventName options = Return o ->
  opt_address o = address this
  /\ address this <> None
  /\ opt_filter o = opt_filter options
  /\ opt_fromBlock o = opt_fromBlock options
  /\ opt_toBlock o = opt_toBlock options.
Proof.
  unfold Contract.getLogOptions.
  destruct (address this) as [addr|]; [|discriminate].
  destruct (String.eqb _ "allevents").
  - intros [= <-]. cbn. repeat split. discriminate.
  - destruct (List.find _ _) as [event|]; [|discriminate].
    destruct (Contract.getEventTopics _ event options); [|discriminate].
    intros [= <-]. cbn. repeat split. discriminate.
Qed.

(** X8.  [getLogOptions] refuses a name with [Event "name" doesn't exist
    in this contract.] when the name is no casing of [allevents], no event
    of the ABI bears it, and no event has as its signature [0x] followed by
    the name without its first [0x], wherever in the name that stands. *)
Theorem getLogOptions_unknown_event this (addr : Address) (n : string)
    options :
  address this = Some addr ->
  toLowerCase n <> "allevents" ->
  (forall json, In json (jsonInterface this) -> type json = "event" ->
                name json <> Some n
                /\ signature json <> Some ("0x" ++ remove0x n)%string) ->
  getLogOptions this (Some n) options
  = Throw (JsError ("Event " ++ dquote ++ n ++ dquote
                    ++ " doesn't exist in this contract.")).
Proof.
  intros Haddr Hall Hnone. unfold Contract.getLogOptions.
  rewrite Haddr. cbn [default]. unfold id.
  apply String.eqb_neq in Hall. rewrite Hall.
  rewrite find_all_false; [reflexivity|].
  intros json Hin. unfold isEvent.
  destruct (String.eqb (type json) "event") eqn:Htype; [|reflexivity].
  apply String.eqb_eq in Htype.
  destruct (Hnone json Hin Htype) as [Hname Hsig].
  rewrite (optionEqb_false _ _ Hname), (optionEqb_false _ _ Hsig).
  reflexivity.
Qed.

(** X9.  An event is looked up by its signature with or without the [0x] in
    front: for hex digits [h] (no [0x] inside), when no event is itself
    named [h] or [0x] + [h], the two spellings succeed together, with the
    same options. *)
Theorem getLogOptions_signature_prefix this (h : string) options
    (o : @GetLogOptions Address) :
  contains0x h = false ->
  toLowerCase h <> "allevents" ->
  (forall json, In json (jsonInterface this) ->
                name json <> Some h /\ name json <> Some ("0x" ++ h)%string) ->
  getLogOptions this (Some h) options = Return o
  <-> getLogOptions this (Some ("0x" ++ h)%string) options = Return o.
Proof.
  intros Hclean Hall Hnames. unfold Contract.getLogOptions.
  destruct (address this) as [addr|]; [|split; discriminate].
  cbn [default]. unfold id.
  apply String.eqb_neq in Hall. rewrite Hall.
  change (toLowerCase ("0x" ++ h)%string)
    with (String "0" (String "x" (toLowerCase h))).
  cbn [String.eqb Ascii.eqb Bool.eqb].
  rewrite (find_ext_in (isEvent h) (isEvent ("0x" ++ h)%string)).
  - destruct (List.find _ _) as [event|]; [reflexivity|split; discriminate].
  - intros json Hin. unfold isEvent.
    destruct (Hnames json Hin) as [Hbare Hprefixed].
    rewrite (optionEqb_false _ _ Hbare), (optionEqb_false _ _ Hprefixed).
    rewrite remove0x_prefixed, (remove0x_clean h Hclean). reflexivity.
Qed.

Lemma mapM_all_null {A} (f : A -> Completion Topic) (l : list A) :
  (forall a, In a l -> f a = Return TopicNull) ->
  mapM f l = Return (repeat TopicNull (length l)).
Proof.
  induction l as [|a l IH]; intros Hall; [reflexivity|].
  cbn [mapM]. rewrite (Hall a) by (left; reflexivity).
  rewrite IH by (intros b Hb; apply Hall; right; exact Hb).
  reflexivity.
Qed.

(** X10.  Without filter values (no [filter], or an empty one) the topics of
    an event are its signature, unless the event is anonymous or has none,
    followed by one [null] for each indexed input; nothing is encoded, so
    this cannot fail.  It takes that no indexed input bears the name of a
    member of [Object.prototype], which an empty filter would answer for. *)
Theorem getEventTopics_without_filter event options :
  opt_filter options = None \/ opt_filter options = Some [] ->
  (forall input, In input (default [] (inputs event)) ->
                 indexed input = Some true ->
                 inherited (input_name input) = false) ->
  exists head,
    getEventTopics event options
    = Return (head
              ++ repeat TopicNull
                   (length
                      (List.filter
                         (fun input =>
                            match indexed input with
                            | Some true => true
                            | _ => false
                            end)
                         (default [] (inputs event)))))
    /\ (isTrue (anonymous event) = true \/ signature event = None ->
        head = [])
    /\ (forall sig, isTrue (anonymous event) = false ->
                    signature event = Some sig -> sig <> "" ->
                    head = [TopicOne sig]).
Proof.
  intros Hfilter Hnames. unfold Contract.getEventTopics.
  rewrite mapM_all_null.
  - eexists. split; [reflexivity|]. split.
    + intros [Hanon | Hsig].
      * rewrite Hanon. destruct (signature event); reflexivity.
      * rewrite Hsig. reflexivity.
    + intros sig Hanon Hsig Hne. rewrite Hsig, Hanon.
      apply String.eqb_neq in Hne. rewrite Hne. reflexivity.
  - intros input Hin. apply filter_In in Hin as [Hin Hindexed].
    assert (Hidx : indexed input = Some true)
      by (destruct (indexed input) as [[]|]; congruence).
    unfold indexedTopic, getMember.
    assert (Hassoc : assoc (default [] (opt_filter options))
                       (input_name input) = None)
      by (destruct Hfilter as [-> | ->]; reflexivity).
    rewrite Hassoc, (Hnames input Hin Hidx). reflexivity.
Qed.
End LogOptionsMore.

(** ** Contract: methods and overloads *)

Section MethodsMore.
Import Contract.
Context {Address Wallet : Type}.
Context (abiMethodToString : AbiDefinition -> string)
        (encodeFunctionSignature : string -> string)
        (callInherited : string -> @TxFactory Address Wallet)
        (callFunctionMember : string -> @TxFactory Address Wallet).
Implicit Types (this : @Contract.Contract Address Wallet)
  (d method : AbiDefinition) (abi ds before after : list AbiDefinition)
  (args : list JsVal) (methods : @Methods Address Wallet)
  (f g : @TxFactory Address Wallet).

Local Abbreviation getMethods :=
  (Contract.getMethods abiMethodToString encodeFunctionSignature callInherited
     callFunctionMember).
Local Abbreviation addMethod :=
  (Contract.addMethod abiMethodToString encodeFunctionSignature callInherited
     callFunctionMember).
Local Abbreviation storedKeys :=
  (Contract.storedKeys abiMethodToString encodeFunctionSignature).
Local Abbreviation resign :=
  (Contract.resign abiMethodToString encodeFunctionSignature).

Lemma find_app_first {A} (p : A -> bool) (l1 l2 : list A) :
  List.find p (l1 ++ l2)
  = match List.find p l1 with
    | Some x => Some x
    | None => List.find p l2
    end.
Proof.
  induction l1 as [|x l1 IH]; [reflexivity|].
  cbn [app List.find]. destruct (p x); [reflexivity | exact IH].
Qed.

Lemma executorFactory_accepts this (addr : Address) d
    (next : option (@TxFactory Address Wallet)) args :
  address this = Some addr ->
  executorFactory d next this args
  = if accepts args d then
      Return {| tx_definition := d; tx_address := addr; tx_args := args;
                tx_options := options this; tx_wallet := wallet this |}
    else
      match next with
      | Some g => g this args
      | None =>
          Throw (InvalidNumberOfParams (length args)
                   (length (default [] (inputs d))) (name d))
      end.
Proof.
  intros Haddr. unfold executorFactory, accepts. rewrite Haddr.
  destruct (inputs d) as [ins|]; [|reflexivity].
  cbn [andb orb default]. destruct (length args =? length ins)%nat;
    reflexivity.
Qed.

Lemma cascade_call this (addr : Address) ds g f args :
  address this = Some addr ->
  cascade (Some g) ds = Some f ->
  f this args
  = match List.find (accepts args) (rev ds) with
    | Some d =>
        Return {| tx_definition := d; tx_address := addr; tx_args := args;
                  tx_options := options this; tx_wallet := wallet this |}
    | None => g this args
    end.
Proof.
  intros Haddr. revert g.
  induction ds as [|d ds IH]; intros g Hf.
  - cbn in Hf. injection Hf as <-. reflexivity.
  - cbn [rev]. rewrite find_app_first.
    unfold cascade in Hf. cbn [fold_left] in Hf.
    rewrite (IH _ Hf).
    destruct (List.find (accepts args) (rev ds)); [reflexivity|].
    rewrite (executorFactory_accepts this addr d (Some g) args Haddr).
    cbn [List.find]. destruct (accepts args d); reflexivity.
Qed.

(** X12.  Calling what a chain of overloads leaves registered, on a contract
    with an address: the call goes to the definition registered last among
    those that take this number of arguments (or declare no inputs); when
    none does, it throws [InvalidNumberOfParams] with the input count and
    the name of the definition registered first. *)
Theorem overload_resolution this (addr : Address) d ds f args :
  address this = Some addr ->
  cascade None (d :: ds) = Some f ->
  f this args
  = match List.find (accepts args) (rev (d :: ds)) with
    | Some chosen =>
        Return {| tx_definition := chosen; tx_address := addr;
                  tx_args := args; tx_options := options this;
                  tx_wallet := wallet this |}
    | None =>
        Throw (InvalidNumberOfParams (length args)
                 (length (default [] (inputs d))) (name d))
    end.
Proof.
  intros Haddr Hf. unfold cascade in Hf. cbn [fold_left] in Hf.
  rewrite (cascade_call this addr ds _ f args Haddr Hf).
  cbn [rev]. rewrite find_app_first.
  destruct (List.find (accepts args) (rev ds)); [reflexivity|].
  rewrite (executorFactory_accepts this addr d None args Haddr).
  cbn [List.find]. destruct (accepts args d); reflexivity.
Qed.

Lemma forEach_app {S A} (f : A -> M S unit) (l1 l2 : list A) (s : S) :
  forEach f (l1 ++ l2) s
  = match forEach f l1 s with
    | (Return _, s') => forEach f l2 s'
    | (Throw e, s') => (Throw e, s')
    end.
Proof.
  revert s. induction l1 as [|a l1 IH]; intros s; [reflexivity|].
  cbn [app forEach]. unfold bind.
  destruct (f a s) as [[[]|e] s']; [apply IH | reflexivity].
Qed.

(** X13.  Under its full name ([name(types)]) a function of the ABI is
    registered without a next overload, whatever other functions share its
    name, when no function after it is stored under that key: called there
    with a wrong number of arguments it throws.  Likewise under its
    signature.  This for an ABI no function of which is stored under
    [__proto__]; on such an ABI [getMethods] returns. *)
Theorem getMethods_full_name before d after :
  type d = "function" ->
  (forall m, In m (before ++ d :: after) -> type m = "function" ->
             ~ In "__proto__" (storedKeys m)) ->
  exists methods,
    getMethods (before ++ d :: after) = Return methods
    /\ ((forall m, In m after -> type m = "function" ->
                   ~ In (abiMethodToString d) (storedKeys m)) ->
        properties methods !! abiMethodToString d
        = Some (executorFactory (resign d) None))
    /\ ((forall m, In m after -> type m = "function" ->
                   ~ In (encodeFunctionSignature (abiMethodToString d))
                       (storedKeys m)) ->
        properties methods !! encodeFunctionSignature (abiMethodToString d)
        = Some (executorFactory (resign d) None)).
Proof.
  intros Htype Hproto. unfold Contract.getMethods.
  rewrite List.filter_app. cbn [List.filter]. rewrite Htype.
  cbn [String.eqb Ascii.eqb Bool.eqb]. rewrite forEach_app.
  assert (Hfunctions : forall l m,
            In m (List.filter
                    (fun method => String.eqb (type method) "function") l) ->
            In m l /\ type m = "function").
  { intros l m Hin. apply filter_In in Hin as [Hin Hm].
    split; [exact Hin | apply String.eqb_eq, Hm]. }
  destruct (forEach_addMethod_plain abiMethodToString encodeFunctionSignature
              callInherited callFunctionMember
              (List.filter (fun method => String.eqb (type method) "function")
                 before)
              noMethods eq_refl)
    as (table1 & Hrun1 & _ & _).
  { intros m Hin. apply Hfunctions in Hin as [Hin Hm].
    apply Hproto; [apply in_or_app; left; exact Hin | exact Hm]. }
  rewrite Hrun1. cbn [forEach]. unfold bind at 1.
  rewrite (addMethod_plain abiMethodToString encodeFunctionSignature
             callInherited callFunctionMember d
             {| properties := table1; prototype := None |} eq_refl)
    by (apply Hproto; [apply in_or_app; right; left; reflexivity
                      | exact Htype]).
  match goal with
  | |- context [forEach _ _ ?s] =>
      destruct (forEach_addMethod_plain abiMethodToString
                  encodeFunctionSignature callInherited callFunctionMember
                  (List.filter
                     (fun method => String.eqb (type method) "function")
                     after)
                  s eq_refl)
        as (table & Hrun & Hother & _)
  end.
  { intros m Hin. apply Hfunctions in Hin as [Hin Hm].
    apply Hproto; [apply in_or_app; right; right; exact Hin | exact Hm]. }
  rewrite Hrun. eexists. split; [reflexivity|]. cbn [properties] in *.
  rewrite (resign_function abiMethodToString encodeFunctionSignature d Htype).
  split; intros Hlater.
  - rewrite Hother
      by (intros m Hin; apply Hfunctions in Hin as [Hin Hm];
          apply Hlater; assumption).
    apply lookup_insert_eq.
  - rewrite Hother
      by (intros m Hin; apply Hfunctions in Hin as [Hin Hm];
          apply Hlater; assumption).
    rewrite lookup_insert. case_decide; [reflexivity|].
    apply lookup_insert_eq.
Qed.

End MethodsMore.

(** ** Contract: receipts and deployment *)

Section ReceiptsMore.
Import Contract.
Context {Address Wallet Log EventLog ReceiptFields : Type}.
Context (abiMethodToString : AbiDefinition -> string)
        (encodeFunctionSignature : string -> string)
        (encodeEventSignature : string -> string)
        (decodeAnyEvent : list AbiDefinition -> Log -> EventLog)
        (event : EventLog -> option string).
Implicit Types (this : @Contract.Contract Address Wallet)
  (receipt : @TransactionReceipt Address Log EventLog ReceiptFields)
  (decoded : list EventLog) (abi : list AbiDefinition)
  (args : list JsVal).

Local Abbreviation addEvent :=
  (@Contract.addEvent Address Log EventLog ReceiptFields event).
Local Abbreviation receiptFormatter :=
  (@Contract.receiptFormatter Address Wallet Log EventLog ReceiptFields
     decodeAnyEvent event).

Lemma addEvent_keeps (ev : EventLog) receipt :
  logs (snd (addEvent ev receipt)) = logs receipt
  /\ contractAddress (snd (addEvent ev receipt)) = contractAddress receipt
  /\ fields (snd (addEvent ev receipt)) = fields receipt.
Proof.
  unfold Contract.addEvent.
  destruct (named event ev).
  - destruct (events receipt) as [table|]; [|repeat split].
    destruct (getProperty table s); repeat split.
  - destruct (unnamedEvents receipt); repeat split.
Qed.

Lemma forEach_addEvent_keeps decoded receipt :
  logs (snd (forEach addEvent decoded receipt)) = logs receipt
  /\ contractAddress (snd (forEach addEvent decoded receipt))
     = contractAddress receipt
  /\ fields (snd (forEach addEvent decoded receipt)) = fields receipt.
Proof.
  revert receipt. induction decoded as [|ev decoded IH]; intros receipt.
  - repeat split.
  - cbn [forEach]. unfold bind.
    destruct (addEvent_keeps ev receipt) as (Hlogs & Haddr & Hfields).
    destruct (addEvent ev receipt) as [[[]|e] receipt']; cbn [snd] in *.
    + destruct (IH receipt') as (Hlogs' & Haddr' & Hfields').
      rewrite Hlogs', Haddr', Hfields'. auto.
    + auto.
Qed.

(** X15.  Whether it returns or throws, the formatter leaves the contract
    address and the other fields of the receipt alone; and when it throws,
    the raw logs are still in the receipt. *)
Theorem receiptFormatter_keeps_fields this receipt :
  contractAddress (snd (receiptFormatter this receipt))
  = contractAddress receipt
  /\ fields (snd (receiptFormatter this receipt)) = fields receipt
  /\ (forall e, fst (receiptFormatter this receipt) = Throw e ->
                logs (snd (receiptFormatter this receipt)) = logs receipt).
Proof.
  unfold Contract.receiptFormatter.
  destruct (logs receipt) as [ls|] eqn:Hlogs.
  - match goal with
    | |- context [forEach ?f ?l ?r] =>
        destruct (forEach_addEvent_keeps l r) as (Hl & Ha & Hf);
        destruct (forEach f l r) as [[[]|e'] receipt']
    end; cbn [fst snd logs contractAddress fields] in *.
    + repeat split; [exact Ha | exact Hf | discriminate].
    + repeat split; [exact Ha | exact Hf |]. intros e _. exact Hl.
  - cbn. repeat split. intros e. discriminate.
Qed.

(** X16.  Formatting a receipt that the formatter has already returned
    changes nothing: its logs are gone, so the second pass hands it back as
    it is. *)
Theorem receiptFormatter_twice this receipt :
  fst (receiptFormatter this receipt) = Return tt ->
  receiptFormatter this (snd (receiptFormatter this receipt))
  = (Return tt, snd (receiptFormatter this receipt)).
Proof.
  unfold Contract.receiptFormatter at 1 3 4.
  destruct (logs receipt) as [ls|] eqn:Hlogs.
  - match goal with
    | |- context [forEach ?f ?l ?r] =>
        destruct (forEach f l r) as [[[]|e'] receipt']
    end; cbn [fst snd]; [|discriminate].
    intros _. reflexivity.
  - intros _. cbn [snd]. unfold Contract.receiptFormatter. rewrite Hlogs.
    reflexivity.
Qed.

(** X17.  After [contractDeployFormatter] the contract is bound to whatever
    the receipt names as contract address, and to nothing when it names
    none, even if the contract had an address before: executors then throw
    ['No contract address.'].  The receipt comes back untouched, the ABI,
    the options and the wallet stay. *)
Theorem contractDeployFormatter_rebinds this receipt :
  fst (contractDeployFormatter receipt this) = Return receipt
  /\ address (snd (contractDeployFormatter receipt this))
     = contractAddress receipt
  /\ jsonInterface (snd (contractDeployFormatter receipt this))
     = jsonInterface this
  /\ (contractAddress receipt = None ->
      forall definition nextOverload args,
        executorFactory definition nextOverload
          (snd (contractDeployFormatter receipt this)) args
        = Throw (JsError "No contract address."))
  /\ (forall (addr : Address) definition (ins : list AbiInput) nextOverload
             args,
        contractAddress receipt = Some addr ->
        inputs definition = Some ins ->
        length args = length ins ->
        executorFactory definition nextOverload
          (snd (contractDeployFormatter receipt this)) args
        = Return {| tx_definition := definition; tx_address := addr;
                    tx_args := args; tx_options := options this;
                    tx_wallet := wallet this |}).
Proof.
  unfold contractDeployFormatter. cbn [fst snd address jsonInterface].
  repeat apply conj; try reflexivity.
  - intros Hnone definition nextOverload args.
    unfold executorFactory. cbn [address]. rewrite Hnone. reflexivity.
  - intros addr definition ins nextOverload args Haddr Hins Hlen.
    unfold executorFactory. cbn [address options wallet].
    rewrite Haddr, Hins. apply Nat.eqb_eq in Hlen. rewrite Hlen.
    reflexivity.
Qed.

Lemma find_markConstructor abi :
  List.find isConstructor (markConstructor abi)
  = setSignature "constructor" <$> List.find isConstructor abi.
Proof.
  induction abi as [|method abi IH]; [reflexivity|].
  cbn [markConstructor List.find].
  destruct (isConstructor method) eqn:Hmethod.
  - cbn [List.find]. unfold isConstructor in *. cbn [type setSignature].
    rewrite Hmethod. reflexivity.
  - cbn [List.find]. rewrite Hmethod. exact IH.
Qed.

Lemma markConstructor_twice abi :
  markConstructor (markConstructor abi) = markConstructor abi.
Proof.
  induction abi as [|method abi IH]; [reflexivity|].
  cbn [markConstructor].
  destruct (isConstructor method) eqn:Hmethod.
  - cbn [markConstructor]. unfold isConstructor in *.
    cbn [type setSignature]. rewrite Hmethod. reflexivity.
  - cbn [markConstructor]. rewrite Hmethod, IH. reflexivity.
Qed.

Lemma length_markConstructor abi :
  length (markConstructor abi) = length abi.
Proof.
  induction abi as [|method abi IH]; [reflexivity|].
  cbn [markConstructor]. destruct (isConstructor method); cbn [length];
    congruence.
Qed.

(** X18.  [deployBytecode] returns a deployment on every contract, with or
    without an address and whatever the number of arguments: its definition
    is of type [constructor] with the signature ['constructor'] and the
    inputs of the ABI's first constructor (none when the ABI has no
    constructor), and it carries the data and the arguments as given.  The
    contract keeps its address and the size of its ABI, and the same call
    once more gives the same deployment and changes nothing further. *)
Theorem deployBytecode_constructor this (data : string) args :
  exists deployment : @TxDeploy Address Wallet,
    fst (deployBytecode data args this) = Return deployment
    /\ type (deploy_definition deployment) = "constructor"
    /\ signature (deploy_definition deployment) = Some "constructor"
    /\ inputs (deploy_definition deployment)
       = match List.find isConstructor (jsonInterface this) with
         | Some found => inputs found
         | None => None
         end
    /\ deploy_data deployment = data
    /\ deploy_args deployment = args
    /\ address (snd (deployBytecode data args this)) = address this
    /\ length (jsonInterface (snd (deployBytecode data args this)))
       = length (jsonInterface this)
    /\ deployBytecode data args (snd (deployBytecode data args this))
       = (Return deployment, snd (deployBytecode data args this)).
Proof.
  unfold deployBytecode. cbn [fst snd jsonInterface address options wallet].
  eexists. split; [reflexivity|].
  cbn [deploy_definition deploy_data deploy_args setSignature type signature
         inputs].
  repeat apply conj; try reflexivity.
  - destruct (List.find isConstructor (jsonInterface this)) as [found|] eqn:Hfind.
    + apply find_some in Hfind as [_ Hfound]. cbn [default]. unfold id.
      apply String.eqb_eq. exact Hfound.
    + reflexivity.
  - destruct (List.find isConstructor (jsonInterface this)); reflexivity.
  - apply length_markConstructor.
  - rewrite find_markConstructor, markConstructor_twice.
    destruct (List.find isConstructor (jsonInterface this)); reflexivity.
Qed.

End ReceiptsMore.

(** ** The further properties on the fixtures *)

(** [Transfer] on [token], asked with options that name contract 99. *)
Lemma getLogOptions_keeps_options_witness :
  exists o,
    Contract.getLogOptions Fixture.encodeParameter Fixture.token
      (Some "Transfer") Fixture.foreignOptions = Return o
    /\ Contract.opt_address o = Some 7%N
    /\ Contract.opt_fromBlock o = Some (VNum 0).
Proof.
  eexists. split; [reflexivity|].
  destruct (getLogOptions_keeps_options Fixture.encodeParameter Fixture.token
              (Some "Transfer") Fixture.foreignOptions _ eq_refl)
    as (Haddress & _ & _ & Hfrom & _).
  split; [exact Haddress | exact Hfrom].
Defined.

(** [Approval] is no event of [token]. *)
Lemma getLogOptions_unknown_event_witness :
  Contract.getLogOptions Fixture.encodeParameter Fixture.token
    (Some "Approval") Fixture.noFilter
  = Throw (JsError ("Event " ++ Contract.dquote ++ "Approval"
                    ++ Contract.dquote ++ " doesn't exist in this contract.")).
Proof.
  apply (getLogOptions_unknown_event Fixture.encodeParameter Fixture.token
           7%N "Approval" Fixture.noFilter eq_refl).
  - discriminate.
  - intros json [<- | []] _. split; discriminate.
Defined.

(** The first [0x] of a name is dropped wherever it stands: [ddf2520xad]
    finds the event whose signature is [0xddf252ad]. *)
Example getLogOptions_inner_0x :
  Contract.getLogOptions Fixture.encodeParameter Fixture.token
    (Some "ddf2520xad") Fixture.noFilter
  = Return Fixture.transferLogOptions.
Proof. reflexivity. Qed.

(** The signature of [Transfer] without and with [0x]. *)
Lemma getLogOptions_signature_prefix_witness :
  Contract.getLogOptions Fixture.encodeParameter Fixture.token
    (Some "0xddf252ad") Fixture.noFilter
  = Return Fixture.transferLogOptions.
Proof.
  apply (proj1 (getLogOptions_signature_prefix Fixture.encodeParameter
                  Fixture.token "ddf252ad" Fixture.noFilter
                  Fixture.transferLogOptions eq_refl
                  ltac:(discriminate)
                  ltac:(intros json [<- | []]; split; discriminate))).
  reflexivity.
Defined.

(** [Transfer] has two indexed inputs: the signature and two nulls. *)
Lemma getEventTopics_without_filter_witness :
  Contract.getEventTopics Fixture.encodeParameter Fixture.transferEvent
    Fixture.noFilter
  = Return [Contract.TopicOne "0xddf252ad"; Contract.TopicNull;
            Contract.TopicNull].
Proof.
  destruct (getEventTopics_without_filter Fixture.encodeParameter
              Fixture.transferEvent Fixture.noFilter
              (or_introl eq_refl)
              ltac:(intros input [<- | [<- | [<- | []]]] _; reflexivity))
    as (head & Htopics & _ & Hhead).
  rewrite Htopics.
  rewrite (Hhead "0xddf252ad" eq_refl eq_refl ltac:(discriminate)).
  reflexivity.
Defined.

(** Three arguments fit neither overload: the error names the count of the
    one registered first. *)
Lemma overload_resolution_witness :
  Contract.executorFactory Fixture.transferAmount
    (Some (Contract.executorFactory Fixture.transferTo None))
    (Fixture.contractAt (Some 7%N)) [VStr "0xb0b"; VNum 1; VNum 2]
  = Throw (InvalidNumberOfParams 3 1 (Some "transfer")).
Proof.
  apply (overload_resolution (Fixture.contractAt (Some 7%N)) 7%N
           Fixture.transferTo [Fixture.transferAmount] _
           [VStr "0xb0b"; VNum 1; VNum 2] eq_refl eq_refl).
Defined.

(** The second overload of [transfer] under its full name, in the fixture's
    ABI, whose functions are followed by events. *)
Lemma getMethods_full_name_witness :
  exists methods,
    Contract.getMethods Fixture.abiMethodToString Fixture.encodeSignature
      Fixture.callInherited Fixture.callFunctionMember Fixture.abi
    = Return methods
    /\ Contract.properties methods !! "transfer(address,uint256)"
       = Some (Contract.executorFactory Fixture.transferAmount None).
Proof.
  destruct (getMethods_full_name Fixture.abiMethodToString
              Fixture.encodeSignature Fixture.callInherited
              Fixture.callFunctionMember
              [Fixture.function "transfer" ["address"]]
              (Fixture.function "transfer" ["address"; "uint256"])
              [Fixture.eventDef "Transfer"; Fixture.eventDef "hasOwnProperty"]
              eq_refl)
    as (methods & Hrun & Hfull & _).
  - intros m [<- | [<- | [<- | [<- | []]]]] _; cbn;
      intros [Heq | [Heq | [Heq | []]]]; discriminate.
  - exists methods. split; [exact Hrun|].
    apply Hfull. intros m [<- | [<- | []]]; discriminate.
Defined.

(** A receipt formatted twice. *)
Lemma receiptFormatter_twice_witness :
  Contract.receiptFormatter Fixture.decodeAnyEvent Fixture.ev_event
    (Fixture.contractAt (Some 7%N))
    (snd (Contract.receiptFormatter Fixture.decodeAnyEvent Fixture.ev_event
            (Fixture.contractAt (Some 7%N)) Fixture.transfersReceipt))
  = (Return tt,
     snd (Contract.receiptFormatter Fixture.decodeAnyEvent Fixture.ev_event
            (Fixture.contractAt (Some 7%N)) Fixture.transfersReceipt)).
Proof.
  apply (receiptFormatter_twice Fixture.decodeAnyEvent Fixture.ev_event
           (Fixture.contractAt (Some 7%N)) Fixture.transfersReceipt).
  reflexivity.
Defined.

(** The grouping of a receipt with two [Transfer] logs. *)
Lemma receiptFormatter_groups_witness :
  exists table,
    Contract.events
      (snd (Contract.receiptFormatter Fixture.decodeAnyEvent
              Fixture.ev_event (Fixture.contractAt (Some 7%N))
              Fixture.transfersReceipt))
    = Some table
    /\ table !! "Transfer"
       = Some [ {| Fixture.ev_event := Some "Transfer";
                   Fixture.ev_payload := "a" |};
                {| Fixture.ev_event := Some "Transfer";
                   Fixture.ev_payload := "c" |} ].
Proof.
  destruct (receiptFormatter_groups Fixture.decodeAnyEvent Fixture.ev_event
              (Fixture.contractAt (Some 7%N)) Fixture.transfersReceipt
              _ eq_refl
              ltac:(intros l n [<- | [<- | [<- | []]]] [= <-]; reflexivity))
    as (table & Hrun & Hlookup).
  exists table. rewrite Hrun. split; [reflexivity|].
  rewrite Hlookup. reflexivity.
Defined.
